(** * BrainBrew: the session store, the pages and the quiz state machine

    A shallow embedding of the Streamlit application: [App.py] (liveness
    check, bootstrap, session defaults, navigation) and the pages
    [pages/Main.py], [pages/Notes.py], [pages/QnA.py] and [pages/Quiz.py].

    A Streamlit script is re-executed from its first line on every user
    interaction.  One execution is modelled as a computation over the
    session store that may finish, stop with [st.rerun()], or stop with a
    Python exception.  What the execution reads from outside (widget
    values, the HTTP probe, the process launch, the language-model chains)
    is gathered in an environment record.

    Each of the pages that generate text builds its chat model first; the
    construction fails when no API key is at hand, and the page then stops
    before its first widget.  The prompt templates and the piping of the
    chains are left out: the chains are taken from the environment as
    functions of their argument.  Also left out are the logo, page
    configuration and sidebar of [App.py], and [pages/About.py], whose
    source is not available.  Streamlit calls that only draw are recorded
    as actions and return; the Python-level failures of the pages
    (division by zero, index out of range, missing key) are modelled. *)

From Stdlib Require Import Ascii String ZArith.
From stdpp Require Import gmap strings list.

Open Scope string_scope.
Open Scope nat_scope.
Open Scope list_scope.

(** ** Python values used by the application *)

Module Py.

(** Exception classes that the modelled code can meet.  Only instances of
    [Exception] are represented; [str_of] is Python's [str(e)]. *)
Inductive exception :=
| ZeroDivisionError
| IndexError
| KeyError
| TypeError
| OSError (msg : string)
| RemoteError (msg : string)
| GroqError.

Definition str_of (e : exception) : string :=
  match e with
  | ZeroDivisionError => "division by zero"
  | IndexError => "list index out of range"
  | KeyError => "None"
  | TypeError => "object of type 'NoneType' has no len()"
  | OSError msg => msg
  | RemoteError msg => msg
  | GroqError =>
      "The api_key client option must be set either by passing api_key to the client or by setting the GROQ_API_KEY environment variable"
  end.

(** A [Dict[str, bool]]: insertion ordered, so an association list.  A
    Python dict has distinct keys; nothing below depends on it. *)
Definition dict := list (string * bool).

(** [list(d.keys())] *)
Definition keys (d : dict) : list string := d.*1.

(** [d[k]], [None] standing for [KeyError]. *)
Fixpoint get (d : dict) (k : string) : option bool :=
  match d with
  | [] => None
  | (k', v) :: d' => if bool_decide (k' = k) then Some v else get d' k
  end.

(** Truth value of an optional string: [None] and the empty string are
    false. *)
Definition truthy (s : option string) : bool :=
  match s with
  | None => false
  | Some s => negb (bool_decide (s = ""))
  end.

(** [xs[1::]] *)
Definition slice_from_1 {A} (xs : list A) : list A := drop 1 xs.

End Py.

(** ** The session store *)

(** [quiz_output.QuestionItem] after [dict(...)]: the keys [question] and
    [options]. *)
Record QuestionItem := {
  question : string;
  options : Py.dict
}.

(** The structured outputs requested from the model. *)
Record questions_output := {
  questions_thinking_content : string;
  questions_response_content : list string
}.

Record quiz_output := {
  thinking_content : string;
  response_content : list QuestionItem
}.

(** An entry of [st.session_state.messages]. *)
Record message := {
  role : string;
  content : string
}.

(** [st.session_state] once [App.py] has set its defaults. *)
Record session_state := {
  status : string;
  user_input : option string;
  quiz_questions : option (list QuestionItem);
  current_question_idx : nat;
  score : nat;
  attempted_questions : gset nat;
  quiz_completed : bool;
  total_questions : nat;
  groq_api_key : option string;
  messages : list message;
  notes : option string;
  first_time : bool
}.

Definition set_status (v : string) (s : session_state) : session_state :=
  {| status := v; user_input := user_input s;
     quiz_questions := quiz_questions s;
     current_question_idx := current_question_idx s; score := score s;
     attempted_questions := attempted_questions s;
     quiz_completed := quiz_completed s;
     total_questions := total_questions s;
     groq_api_key := groq_api_key s; messages := messages s;
     notes := notes s; first_time := first_time s |}.

Definition set_user_input (v : option string) (s : session_state) : session_state :=
  {| status := status s; user_input := v;
     quiz_questions := quiz_questions s;
     current_question_idx := current_question_idx s; score := score s;
     attempted_questions := attempted_questions s;
     quiz_completed := quiz_completed s;
     total_questions := total_questions s;
     groq_api_key := groq_api_key s; messages := messages s;
     notes := notes s; first_time := first_time s |}.

Definition set_quiz_questions (v : option (list QuestionItem)) (s : session_state)
  : session_state :=
  {| status := status s; user_input := user_input s;
     quiz_questions := v;
     current_question_idx := current_question_idx s; score := score s;
     attempted_questions := attempted_questions s;
     quiz_completed := quiz_completed s;
     total_questions := total_questions s;
     groq_api_key := groq_api_key s; messages := messages s;
     notes := notes s; first_time := first_time s |}.

Definition set_current_question_idx (v : nat) (s : session_state) : session_state :=
  {| status := status s; user_input := user_input s;
     quiz_questions := quiz_questions s;
     current_question_idx := v; score := score s;
     attempted_questions := attempted_questions s;
     quiz_completed := quiz_completed s;
     total_questions := total_questions s;
     groq_api_key := groq_api_key s; messages := messages s;
     notes := notes s; first_time := first_time s |}.

Definition set_score (v : nat) (s : session_state) : session_state :=
  {| status := status s; user_input := user_input s;
     quiz_questions := quiz_questions s;
     current_question_idx := current_question_idx s; score := v;
     attempted_questions := attempted_questions s;
     quiz_completed := quiz_completed s;
     total_questions := total_questions s;
     groq_api_key := groq_api_key s; messages := messages s;
     notes := notes s; first_time := first_time s |}.

Definition set_attempted_questions (v : gset nat) (s : session_state) : session_state :=
  {| status := status s; user_input := user_input s;
     quiz_questions := quiz_questions s;
     current_question_idx := current_question_idx s; score := score s;
     attempted_questions := v;
     quiz_completed := quiz_completed s;
     total_questions := total_questions s;
     groq_api_key := groq_api_key s; messages := messages s;
     notes := notes s; first_time := first_time s |}.

Definition set_quiz_completed (v : bool) (s : session_state) : session_state :=
  {| status := status s; user_input := user_input s;
     quiz_questions := quiz_questions s;
     current_question_idx := current_question_idx s; score := score s;
     attempted_questions := attempted_questions s;
     quiz_completed := v;
     total_questions := total_questions s;
     groq_api_key := groq_api_key s; messages := messages s;
     notes := notes s; first_time := first_time s |}.

Definition set_total_questions (v : nat) (s : session_state) : session_state :=
  {| status := status s; user_input := user_input s;
     quiz_questions := quiz_questions s;
     current_question_idx := current_question_idx s; score := score s;
     attempted_questions := attempted_questions s;
     quiz_completed := quiz_completed s;
     total_questions := v;
     groq_api_key := groq_api_key s; messages := messages s;
     notes := notes s; first_time := first_time s |}.

Definition set_groq_api_key (v : option string) (s : session_state) : session_state :=
  {| status := status s; user_input := user_input s;
     quiz_questions := quiz_questions s;
     current_question_idx := current_question_idx s; score := score s;
     attempted_questions := attempted_questions s;
     quiz_completed := quiz_completed s;
     total_questions := total_questions s;
     groq_api_key := v; messages := messages s;
     notes := notes s; first_time := first_time s |}.

Definition set_messages (v : list message) (s : session_state) : session_state :=
  {| status := status s; user_input := user_input s;
     quiz_questions := quiz_questions s;
     current_question_idx := current_question_idx s; score := score s;
     attempted_questions := attempted_questions s;
     quiz_completed := quiz_completed s;
     total_questions := total_questions s;
     groq_api_key := groq_api_key s; messages := v;
     notes := notes s; first_time := first_time s |}.

Definition set_notes (v : option string) (s : session_state) : session_state :=
  {| status := status s; user_input := user_input s;
     quiz_questions := quiz_questions s;
     current_question_idx := current_question_idx s; score := score s;
     attempted_questions := attempted_questions s;
     quiz_completed := quiz_completed s;
     total_questions := total_questions s;
     groq_api_key := groq_api_key s; messages := messages s;
     notes := v; first_time := first_time s |}.

Definition set_first_time (v : bool) (s : session_state) : session_state :=
  {| status := status s; user_input := user_input s;
     quiz_questions := quiz_questions s;
     current_question_idx := current_question_idx s; score := score s;
     attempted_questions := attempted_questions s;
     quiz_completed := quiz_completed s;
     total_questions := total_questions s;
     groq_api_key := groq_api_key s; messages := messages s;
     notes := notes s; first_time := v |}.

(** ** What one execution of the script does and reads *)

Inductive chain := NotesChain | QuestionsChain | AnswerChain | QuizChain.

(** The observable actions of an execution, in the order performed: the
    widgets drawn, the calls made to the outside. *)
Inductive effect :=
| Popen (argv : list string)
| Sleep (seconds : nat)
| SidebarSuccess (body : string)
| Write (body : string)
| WriteStream (body : string)
| Markdown (body : string)
| Header (body : string)
| Divider
| Success (body : string)
| Button (label : string)
| ClearPlaceholder
| Radio (label : string) (choices : list string)
| TextInput (label : string)
| TextArea (label : string)
| FormSubmitButton (label : string)
| Progress (numerator denominator : nat)
| WriteAttempted (attempted total : nat)
| PieChart (correct incorrect : Z)
| ChatMessage (name body : string)
| Invoke (c : chain) (arg : option string).

Inductive request_exception := ConnectionError | Timeout | OtherRequestException.

(** Result of [requests.get]: a response, or one of the library's
    [RequestException]s. *)
Inductive get_outcome :=
| Response (status_code : nat)
| RequestException (e : request_exception).

(** The options of the radio widget of the quiz page, by position. *)
Inductive radio_option := OptionA | OptionB | OptionC | OptionD.

(** Everything an execution reads from outside the session store.
    [getenv] is the environment of the server process; [selected] is the
    option of the radio widget that the user has clicked, [None] while the
    widget is untouched.  A remote call either returns its value or fails
    with an exception.  [notes_chain] and [answer_chain] stand for
    [chain.stream(...)] and give the text chunks; [model_questions] and
    [model_quiz] stand for the prompt piped into the model with structured
    output. *)
Record env := {
  requests_get : string → nat → get_outcome;
  popen : list string → option Py.exception;
  getenv : string → option string;
  pressed : option string;
  selected : option radio_option;
  text_input : string;
  text_area : string;
  notes_chain : option string → Py.exception + list string;
  model_questions : option string → Py.exception + questions_output;
  answer_chain : string → Py.exception + list string;
  model_quiz : option string → Py.exception + quiz_output
}.

(** The environment of the execution that follows [st.rerun()]: the widget
    values persist, no button is pressed. *)
Definition released (e : env) : env :=
  {| requests_get := requests_get e; popen := popen e;
     getenv := getenv e;
     pressed := None; selected := selected e;
     text_input := text_input e; text_area := text_area e;
     notes_chain := notes_chain e; model_questions := model_questions e;
     answer_chain := answer_chain e; model_quiz := model_quiz e |}.

(** The store, the actions so far, and the [st.cache_data] entry of
    [cache_questions]. *)
Record world := {
  ss : session_state;
  out : list effect;
  cache : option (list string)
}.

Inductive completion (A : Type) :=
| Ret (a : A)
| Rerun
| Raise (e : Py.exception).
Arguments Ret {A} a.
Arguments Rerun {A}.
Arguments Raise {A} e.

Definition script (A : Type) : Type := world → completion A * world.

Definition ret {A} (a : A) : script A := λ w, (Ret a, w).

Definition bind {A B} (m : script A) (k : A → script B) : script B :=
  λ w, match m w with
       | (Ret a, w') => k a w'
       | (Rerun, w') => (Rerun, w')
       | (Raise e, w') => (Raise e, w')
       end.

#[global] Instance script_ret : MRet script := @ret.
#[global] Instance script_bind : MBind script := λ A B k m, bind m k.

Definition state : script session_state := λ w, (Ret (ss w), w).

Definition modify (f : session_state → session_state) : script unit :=
  λ w, (Ret (), {| ss := f (ss w); out := out w; cache := cache w |}).

Definition emit (x : effect) : script unit :=
  λ w, (Ret (), {| ss := ss w; out := out w ++ [x]; cache := cache w |}).

(** Reading and filling the [st.cache_data] entry. *)
Definition cached : script (option (list string)) := λ w, (Ret (cache w), w).

Definition memoize (qs : list string) : script unit :=
  λ w, (Ret (), {| ss := ss w; out := out w; cache := Some qs |}).

(** [st.rerun()] *)
Definition rerun {A} : script A := λ w, (Rerun, w).

Definition raise {A} (e : Py.exception) : script A := λ w, (Raise e, w).

(** [l[i]] for [i ≥ 0] *)
Definition index {A} (l : list A) (i : nat) : script A :=
  match l !! i with
  | Some x => ret x
  | None => raise Py.IndexError
  end.

(** [st.button(label)] *)
Definition button (e : env) (label : string) : script bool :=
  emit (Button label);;
  ret (bool_decide (pressed e = Some label)).

Definition option_label (o : radio_option) : string :=
  match o with
  | OptionA => "A"
  | OptionB => "B"
  | OptionC => "C"
  | OptionD => "D"
  end.

(** The value of [st.radio("Select an option", ["A", "B", "C", "D"])]:
    the option the user clicked.  The widget is created with its default
    [index] of 0, so the first option is preselected and the value of the
    untouched widget is "A"; [None] is the value of a widget created with
    [index=None] only. *)
Definition radio (e : env) : option string :=
  Some (option_label (default OptionA (selected e))).

(** [ChatGroq(model=..., api_key=api_key, ...)]: an empty or missing
    [api_key] is replaced by the variable GROQ_API_KEY of the process, and
    the client refuses to be built without a key.  A key is not checked
    here: a wrong one makes the remote calls fail. *)
Definition ChatGroq (e : env) (api_key : option string) : script unit :=
  let api_key :=
    if Py.truthy api_key then api_key else getenv e "GROQ_API_KEY" in
  match api_key with
  | Some _ => mret ()
  | None => raise Py.GroqError
  end.

(** [con.write_stream(chain.stream(arg))]: the chunks are shown as they
    come and their concatenation is returned. *)
Definition write_stream (chunks : list string) : script string :=
  let text := String.concat "" chunks in
  emit (WriteStream text);;
  ret text.

Definition call {A} (c : chain) (arg : option string)
    (r : Py.exception + A) : script A :=
  emit (Invoke c arg);;
  match r with
  | inl ex => raise ex
  | inr v => ret v
  end.

(** [for x in xs: body(x)] *)
Fixpoint for_each {A} (xs : list A) (body : A → script unit) : script unit :=
  match xs with
  | [] => mret ()
  | x :: xs' => body x;; for_each xs' body
  end.

Definition nl : string := String "010"%char "".

Definition enter_topics_prompt : string :=
  "Please enter some topics to get started." +:+ nl +:+
  "             Enter comma separated topics for better results.".

(** ** App.py *)

Module App.

Definition ollama_url : string := "http://localhost:11434".

Definition is_ollama_running (e : env) : bool :=
  match requests_get e ollama_url 2 with
  | Response status_code => bool_decide (status_code = 200)
  | RequestException _ => false
  end.

Definition start_ollama (e : env) : script (option string) :=
  emit (Popen ["ollama"; "serve"]);;
  match popen e ["ollama"; "serve"] with
  | None =>
      emit (Sleep 3);;
      modify (set_status "Online");;
      mret None
  | Some ex => mret (Some ("Failed to start Ollama:" +:+ Py.str_of ex))
  end.

(** The defaults written for the keys missing from a new session. *)
Definition session_defaults : session_state :=
  {| status := "Offline";
     user_input := None;
     quiz_questions := None;
     current_question_idx := 0;
     score := 0;
     attempted_questions := ∅;
     quiz_completed := false;
     total_questions := 1;
     groq_api_key := None;
     messages := [];
     notes := None;
     first_time := true |}.

(** [if not is_ollama_running(): ...]; the string returned by
    [start_ollama] is dropped. *)
Definition bootstrap (e : env) : script unit :=
  if negb (is_ollama_running e) then
    _ ← start_ollama e;
    s ← state;
    if bool_decide (status s = "Online")
    then emit (SidebarSuccess "ollama is running")
    else mret ()
  else mret ().

End App.

(** ** pages/Main.py *)

Module Main.

Definition subheader : string :=
  String.concat nl
    [ "";
      "Tired of endless note-taking? Lit-Notes leverages the power of AI, built within a Streamlit application, to transform your study lists into a dynamic learning experience.";
      "We've harnessed the capabilities of Large Language Models (LLMs) within a Python environment.";
      "";
      "**Here's how it works:**";
      "";
      "1.  **Enter Your Topics:** Simply type or paste your list of subjects or concepts.";
      "";
      "2.  **Python-Powered Generation:** Lit-Notes uses Python to interface with the LLMs, processing your input and generating:";
      "";
      "    *   **Detailed Notes:** Comprehensive summaries created by the LLM.";
      "    *   **Q&A Pairs:** Intelligent questions and answers generated for knowledge testing.";
      "    *   **Custom Quizzes:** Generate quizzes to reinforce your learning - all driven by Python logic.";
      "";
      "Get your Groq API key [here](https://console.groq.com/home)";
      "";
      "" ].

Definition page (e : env) : script unit :=
  s ← state;
  (if first_time s then
     emit (WriteStream subheader);;
     modify (set_first_time false)
   else emit (Write subheader));;
  emit (TextInput "Enter Groq API key here");;
  modify (set_groq_api_key (Some (text_input e)));;
  emit (TextArea "Start by entering comma separated list of topics here");;
  modify (set_user_input (Some (text_area e)));;
  emit (FormSubmitButton "Submit");;
  s ← state;
  if Py.truthy (user_input s) && Py.truthy (groq_api_key s)
  then emit (WriteStream "Great! now head over to the sidebar and start generating!")
  else mret ().

End Main.

(** ** pages/Notes.py *)

Module Notes.

(** [qwq = ChatGroq(..., api_key=st.session_state.groq_api_key, ...)] *)
Definition qwq (e : env) : script unit :=
  s ← state;
  ChatGroq e (groq_api_key s).

(** The statements that follow the construction of the chain. *)
Definition body (e : env) : script unit :=
  s ← state;
  if negb (bool_decide (user_input s = Some "")) then
    match notes s with
    | None =>
        clicked ← button e "Generate Notes";
        if (clicked : bool) then
          emit ClearPlaceholder;;
          chunks ← call NotesChain (user_input s) (notes_chain e (user_input s));
          text ← write_stream chunks;
          modify (set_notes (Some text));;
          emit Divider
        else mret ()
    | Some text => emit (Markdown text)
    end
  else emit (Write enter_topics_prompt).

Definition page (e : env) : script unit :=
  qwq e;;
  body e.

End Notes.

(** ** pages/QnA.py *)

Module QnA.

(** [qwq = ChatGroq(..., api_key=st.session_state.groq_api_key, ...)] *)
Definition qwq (e : env) : script unit :=
  s ← state;
  ChatGroq e (groq_api_key s).

Definition to_list (question_output : questions_output) : list string :=
  questions_response_content question_output.

(** [questions_prompt | model_questions | to_list] *)
Definition questions_chain (e : env) (topics : option string)
  : Py.exception + list string :=
  match model_questions e topics with
  | inl ex => inl ex
  | inr x => inr (to_list x)
  end.

Definition append_message (m : message) : script unit :=
  modify (λ s, set_messages (messages s ++ [m]) s).

(** [@st.cache_data def cache_questions()]: without arguments, so one
    cache entry; the chain is invoked only when the entry is missing. *)
Definition cache_questions (e : env) : script (list string) :=
  hit ← cached;
  match hit with
  | Some qs => mret qs
  | None =>
      s ← state;
      qs ← call QuestionsChain (user_input s)
             (questions_chain e (user_input s));
      memoize qs;;
      mret qs
  end.

(** The body of the loop of [generate_qna]. *)
Definition ask (e : env) (ques : string) : script unit :=
  append_message {| role := "assistant"; content := ques |};;
  emit (ChatMessage "user" ques);;
  chunks ← call AnswerChain (Some ques) (answer_chain e ques);
  answer ← write_stream chunks;
  append_message {| role := "user"; content := answer |};;
  emit Divider.

Definition generate_qna (e : env) : script unit :=
  all ← cache_questions e;
  let questions := Py.slice_from_1 all in
  for_each questions (ask e).

(** The statements that follow the construction of the chains. *)
Definition body (e : env) : script unit :=
  s ← state;
  if negb (bool_decide (user_input s = Some "")) then
    (if bool_decide (messages s ≠ []) then
       for_each (messages s) (λ m,
         if bool_decide (role m = "user")
         then emit (ChatMessage "user" (content m))
         else emit (ChatMessage "assistant" (content m)))
     else mret ());;
    clicked ← button e "Generate Question Answers";
    if (clicked : bool) then
      emit ClearPlaceholder;;
      generate_qna e
    else mret ()
  else emit (Write enter_topics_prompt).

Definition page (e : env) : script unit :=
  qwq e;;
  body e.

End QnA.

(** ** pages/Quiz.py *)

Module Quiz.

(** [qwq = ChatGroq(..., api_key=st.session_state.groq_api_key, ...)] *)
Definition qwq (e : env) : script unit :=
  s ← state;
  ChatGroq e (groq_api_key s).

(** [list(map(dict, x))]: each record becomes the mapping with the keys
    [question] and [options], which is how [QuestionItem] is
    represented here. *)
Definition process (x : list QuestionItem) : list QuestionItem :=
  map (λ item, {| question := question item; options := options item |}) x.

Definition to_quiz_questions (x : quiz_output) : list QuestionItem :=
  process (response_content x).

(** [quiz_prompt | model_quiz | to_quiz_questions] *)
Definition quiz_chain (e : env) (topic : option string)
  : Py.exception + list QuestionItem :=
  match model_quiz e topic with
  | inl ex => inl ex
  | inr x => inr (to_quiz_questions x)
  end.

(** The conditional expression that turns the radio value into an option
    label. *)
Definition answer_of (choice : option string) (option_items : list string)
  : script (option string) :=
  if bool_decide (choice = Some "A") then x ← index option_items 0; mret (Some x)
  else if bool_decide (choice = Some "B") then x ← index option_items 1; mret (Some x)
  else if bool_decide (choice = Some "C") then x ← index option_items 2; mret (Some x)
  else if bool_decide (choice = Some "D") then x ← index option_items 3; mret (Some x)
  else mret None.

(** [options[answer]] *)
Definition lookup (options : Py.dict) (answer : option string) : script bool :=
  match answer with
  | Some k =>
      match Py.get options k with
      | Some v => mret v
      | None => raise Py.KeyError
      end
  | None => raise Py.KeyError
  end.

Definition add_attempted : script unit :=
  modify (λ s, set_attempted_questions
                 (attempted_questions s ∪ {[current_question_idx s]}) s).

Definition quiz (e : env) : script unit :=
  s ← state;
  questions ← match quiz_questions s with
              | Some qs => mret qs
              | None => raise Py.TypeError
              end;
  modify (set_total_questions (length questions));;
  let total_questions := length questions in
  s ← state;
  (if bool_decide (total_questions = 0) then raise Py.ZeroDivisionError
   else emit (Progress (size (attempted_questions s)) total_questions));;
  emit (WriteAttempted (size (attempted_questions s)) total_questions);;
  (if negb (quiz_completed s) then
     (if bool_decide (current_question_idx s < total_questions) then
        current_question ← index questions (current_question_idx s);
        emit (Markdown ("### " +:+ question current_question));;
        let options := options current_question in
        let option_items := Py.keys options in
        emit Divider;;
        a ← index option_items 0;
        emit (Markdown ("A: " +:+ a));;
        b ← index option_items 1;
        emit (Markdown ("B: " +:+ b));;
        c ← index option_items 2;
        emit (Markdown ("C: " +:+ c));;
        d ← index option_items 3;
        emit (Markdown ("D: " +:+ d));;
        emit (Radio "Select an option" ["A"; "B"; "C"; "D"]);;
        let choice := radio e in
        clicked ← button e "Next Question";
        if (clicked : bool) then
          (if Py.truthy choice then
             answer ← answer_of choice option_items;
             correct ← lookup options answer;
             (if (correct : bool) then
                modify (λ s, set_score (score s + 1) s);;
                add_attempted
              else add_attempted);;
             modify (λ s, set_current_question_idx (current_question_idx s + 1) s)
           else mret ());;
          rerun
        else mret ()
      else mret ());;
     s ← state;
     if bool_decide (total_questions ≤ current_question_idx s) then
       modify (set_quiz_completed true);;
       rerun
     else mret ()
   else mret ());;
  s ← state;
  if quiz_completed s then
    emit (Header "Quiz Complete! 🎉");;
    emit (PieChart (Z.of_nat (score s))
            (Z.of_nat total_questions - Z.of_nat (score s)))
  else mret ().

(** The statements that follow the definition of [quiz]. *)
Definition body (e : env) : script unit :=
  s ← state;
  match quiz_questions s with
  | None =>
      clicked ← button e "Generate Quiz";
      (if (clicked : bool) then
         emit ClearPlaceholder;;
         qs ← call QuizChain (user_input s) (quiz_chain e (user_input s));
         modify (set_quiz_questions (Some qs));;
         emit (Success "Quiz generated!");;
         quiz e
       else mret ());;
      emit (Markdown (nl +:+ "Click generate quiz to generate a quiz"))
  | Some _ => quiz e
  end.

Definition page (e : env) : script unit :=
  qwq e;;
  body e.

End Quiz.

(** ** One execution of the application, and a session of executions *)

Inductive page := HomePage | NotesPage | QnaPage | QuizPage.

(** [pg.run()] for the pages whose source is modelled. *)
Definition run (e : env) (pg : page) : script unit :=
  match pg with
  | HomePage => Main.page e
  | NotesPage => Notes.page e
  | QnaPage => QnA.page e
  | QuizPage => Quiz.page e
  end.

(** [App.py] from its first line: the bootstrap, then the selected page.
    The store already holds every key (see [execute]). *)
Definition app (e : env) (pg : page) : script unit :=
  App.bootstrap e;;
  run e pg.

(** What outlives an execution: the store ([None] for a session in which
    the script has not run yet) and the question cache, which Streamlit
    keeps for the server process; [new_session] is the first session of a
    fresh process. *)
Record session := {
  store : option session_state;
  questions_cache : option (list string)
}.

Definition new_session : session := {| store := None; questions_cache := None |}.

(** The world an execution starts in.  A new session gets the defaults of
    [App.py]; the keys other than [status] are neither read nor written by
    the bootstrap, so setting them before it changes nothing. *)
Definition world_of (σ : session) : world :=
  {| ss := default App.session_defaults (store σ);
     out := [];
     cache := questions_cache σ |}.

Definition persist (w : world) : session :=
  {| store := Some (ss w); questions_cache := cache w |}.

(** One execution, with what it drew and called. *)
Definition render (e : env) (pg : page) (σ : session) : completion unit * world :=
  app e pg (world_of σ).

(** One execution, keeping what outlives it. *)
Definition execute (e : env) (pg : page) (σ : session) : completion unit * session :=
  let r := render e pg σ in
  (r.1, persist r.2).

(** A user interaction: the execution it triggers, followed by the
    executions that [st.rerun()] asks for, at most [fuel] of them. *)
Fixpoint interact (fuel : nat) (e : env) (pg : page) (σ : session)
  : completion unit * session :=
  let '(r, σ') := execute e pg σ in
  match r, fuel with
  | Rerun, S fuel' => interact fuel' (released e) pg σ'
  | _, _ => (r, σ')
  end.

(** The sessions that executions can produce from a new one. *)
Inductive reachable : session → Prop :=
| reachable_new : reachable new_session
| reachable_execute e pg σ : reachable σ → reachable (execute e pg σ).2.

(** ** Vocabulary of the statements *)

(** The store as the next execution will see it. *)
Definition current (σ : session) : session_state :=
  default App.session_defaults (store σ).

(** The chat model of a page can be built: the store holds a key, or the
    process has the variable GROQ_API_KEY. *)
Definition has_key (e : env) (s : session_state) : bool :=
  Py.truthy (groq_api_key s) || bool_decide (is_Some (getenv e "GROQ_API_KEY")).

(** The values the radio widget offers. *)
Definition choices : list string := ["A"; "B"; "C"; "D"].

(** The option displayed next to a radio value. *)
Definition position (c : string) : nat :=
  if bool_decide (c = "A") then 0
  else if bool_decide (c = "B") then 1
  else if bool_decide (c = "C") then 2
  else 3.

(** 1 when the option mapping of [q] maps the label displayed next to [c]
    to true, 0 otherwise. *)
Definition gain (q : QuestionItem) (c : string) : nat :=
  match Py.keys (options q) !! position c with
  | Some label =>
      match Py.get (options q) label with
      | Some true => 1
      | _ => 0
      end
  | None => 0
  end.

(** A quiz is being taken: questions are stored, the completion flag is
    off, and the current index points at the record [q]. *)
Definition in_progress (s : session_state) (qs : list QuestionItem)
    (q : QuestionItem) : Prop :=
  quiz_questions s = Some qs ∧
  quiz_completed s = false ∧
  qs !! current_question_idx s = Some q.

(** The record can be displayed: the four labels exist. *)
Definition four_options (q : QuestionItem) : Prop := 4 ≤ length (options q).

(** A 'Next Question' submission with the radio on [c]. *)
Definition submits (e : env) (c : option string) : Prop :=
  pressed e = Some "Next Question" ∧ radio e = c.

(** The part of the store the quiz state machine owns. *)
Definition progress (s : session_state) : nat * gset nat * nat :=
  (score s, attempted_questions s, current_question_idx s).

(** A run of submissions on the quiz page, each settled with [fuel]
    re-executions. *)
Definition play (fuel : nat) (es : list env) (σ : session) : session :=
  foldl (λ σ e, (interact fuel e QuizPage σ).2) σ es.

(** The question/answer pair logged for [ques]. *)
Definition answer_text (e : env) (ques : string) : string :=
  match answer_chain e ques with
  | inr chunks => String.concat "" chunks
  | inl _ => ""
  end.

Definition logged (e : env) (ques : string) : list message :=
  [ {| role := "assistant"; content := ques |};
    {| role := "user"; content := answer_text e ques |} ].

(** What the quiz state machine reads and keeps between executions. *)
Definition quiz_part (s : session_state)
  : option (list QuestionItem) * nat * nat * gset nat * bool * nat :=
  (quiz_questions s, current_question_idx s, score s, attempted_questions s,
   quiz_completed s, total_questions s).

(** The submission of [e] is counted: the store goes from [s] to [s']. *)
Definition advances (e : env) (s s' : session_state) : Prop :=
  ∃ qs q c,
    in_progress s qs q ∧ four_options q ∧ submits e (Some c) ∧ c ∈ choices ∧
    progress s' = (score s + gain q c,
                   attempted_questions s ∪ {[current_question_idx s]},
                   current_question_idx s + 1) ∧
    quiz_completed s' = false.

(** Nothing is counted; the completion flag is either kept or set, and it
    is set only with the index at or beyond the number of questions. *)
Definition rests (s s' : session_state) : Prop :=
  progress s' = progress s ∧
  (quiz_completed s' = quiz_completed s ∨
   quiz_completed s' = true ∧
   ∃ qs, quiz_questions s' = Some qs ∧ length qs ≤ current_question_idx s').

(** How one execution of page [pg] may change the quiz part of the store. *)
Definition evolves (e : env) (pg : page) (s s' : session_state) : Prop :=
  quiz_part s' = quiz_part s ∨
  pg = QuizPage ∧
  ∃ qs, (quiz_questions s = None ∨ quiz_questions s = Some qs) ∧
        quiz_questions s' = Some qs ∧
        total_questions s' = length qs ∧
        (rests s s' ∨ advances e s s').

(** The invariant of the store. *)
Definition consistent (s : session_state) : Prop :=
  score s ≤ size (attempted_questions s) ∧
  (∀ i, i ∈ attempted_questions s → i < current_question_idx s) ∧
  match quiz_questions s with
  | Some qs => total_questions s = length qs ∧ current_question_idx s ≤ length qs
  | None => current_question_idx s = 0 ∧ total_questions s = 1
  end.

(** A computation that leaves the quiz part of the store alone. *)
Definition frames {A} (m : script A) : Prop :=
  ∀ w, quiz_part (ss (m w).2) = quiz_part (ss w).

(** A 'Next Question' submission with one of the radio values. *)
Definition submission (e : env) : Prop := ∃ c, submits e (Some c) ∧ c ∈ choices.

(** ** Sample data *)

Module Sample.

(** The record of the quiz prompt. *)
Definition train : QuestionItem :=
  {| question := "If a train travels 120 miles in 2 hours, what is its average speed?";
     options := [("60 mph", true); ("40 mph", false);
                 ("100 mph", false); ("240 mph", false)] |}.

Definition capital : QuestionItem :=
  {| question := "What is the capital of France?";
     options := [("Rome", false); ("Paris", true);
                 ("Madrid", false); ("Berlin", false)] |}.

(** A record with three options only. *)
Definition short : QuestionItem :=
  {| question := "Is water wet?";
     options := [("Yes", true); ("No", false); ("Maybe", false)] |}.

Definition quiz : list QuestionItem := [train; capital].

(** The service answers, no widget is used, the model returns fixed
    values. *)
Definition quiet : env :=
  {| requests_get := λ _ _, Response 200;
     popen := λ _, None;
     getenv := λ _, None;
     pressed := None;
     selected := None;
     text_input := "";
     text_area := "";
     notes_chain := λ _, inr ["# Notes"; " on the topic"];
     model_questions := λ _,
       inr {| questions_thinking_content := "thinking";
              questions_response_content := ["preamble"; "Q1"; "Q2"] |};
     answer_chain := λ ques, inr ["Answer to "; ques];
     model_quiz := λ _,
       inr {| thinking_content := "thinking"; response_content := quiz |} |}.

(** The button [label] is pressed with the radio on [choice]. *)
Definition press (label : string) (choice : option radio_option) (e : env) : env :=
  {| requests_get := requests_get e; popen := popen e;
     getenv := getenv e;
     pressed := Some label; selected := choice;
     text_input := text_input e; text_area := text_area e;
     notes_chain := notes_chain e; model_questions := model_questions e;
     answer_chain := answer_chain e; model_quiz := model_quiz e |}.

(** The service is down and cannot be launched. *)
Definition offline (e : env) : env :=
  {| requests_get := λ _ _, RequestException ConnectionError;
     popen := λ _, Some (Py.OSError "[Errno 2] No such file or directory: 'ollama'");
     getenv := getenv e;
     pressed := pressed e; selected := selected e;
     text_input := text_input e; text_area := text_area e;
     notes_chain := notes_chain e; model_questions := model_questions e;
     answer_chain := answer_chain e; model_quiz := model_quiz e |}.

(** The form of the home page holds [key] and [topic]. *)
Definition fill (key topic : string) (e : env) : env :=
  {| requests_get := requests_get e; popen := popen e;
     getenv := getenv e;
     pressed := pressed e; selected := selected e;
     text_input := key; text_area := topic;
     notes_chain := notes_chain e; model_questions := model_questions e;
     answer_chain := answer_chain e; model_quiz := model_quiz e |}.

(** The variable GROQ_API_KEY is set for the server process. *)
Definition exported (e : env) : env :=
  {| requests_get := requests_get e; popen := popen e;
     getenv := λ name,
       if bool_decide (name = "GROQ_API_KEY") then Some "gsk_exported"
       else getenv e name;
     pressed := pressed e; selected := selected e;
     text_input := text_input e; text_area := text_area e;
     notes_chain := notes_chain e; model_questions := model_questions e;
     answer_chain := answer_chain e; model_quiz := model_quiz e |}.

(** The session after the form was submitted with a key and a topic. *)
Definition with_topic : session :=
  (interact 2 (fill "gsk_key" "Newton's Laws" quiet) HomePage new_session).2.

(** ... and after 'Generate Quiz'. *)
Definition started : session :=
  (interact 2 (press "Generate Quiz" None quiet) QuizPage with_topic).2.

(** The session after the form was submitted with a key and the topic
    left empty. *)
Definition no_topic : session :=
  (interact 2 (fill "gsk_key" "" quiet) HomePage new_session).2.

(** A stored quiz whose only record has three options. *)
Definition malformed : world :=
  {| ss := set_quiz_questions (Some [short]) App.session_defaults;
     out := [];
     cache := None |}.

Definition empty_quiz : world :=
  {| ss := set_quiz_questions (Some []) App.session_defaults;
     out := [];
     cache := None |}.

End Sample.

(** What a computation adds to the actions: a list of actions that all
    satisfy [P]. *)
Definition emits (P : effect → Prop) {A} (m : script A) : Prop :=
  ∀ w, ∃ o : list effect, out (m w).2 = out w ++ o ∧ Forall P o.

(** The actions of the bootstrap: no widget of a page, no chain call. *)
Definition bootstrap_action (x : effect) : Prop :=
  match x with
  | Popen _ | Sleep _ | SidebarSuccess _ => True
  | _ => False
  end.

Definition not_prompt (x : effect) : Prop := x ≠ Write enter_topics_prompt.

(** ** Vocabulary of the further statements *)

(** Every run of the computation relates the world before to the world
    after by [R]. *)
Definition steady (R : relation world) {A} (m : script A) : Prop :=
  ∀ w, R w (m w).2.

(** How a page may change what the quiz does not own: the status is kept,
    the message log is extended, stored notes are kept, and the first-visit
    flag is not raised again. *)
Definition page_step (s s' : session_state) : Prop :=
  status s' = status s ∧
  messages s `prefix_of` messages s' ∧
  (∀ text, notes s = Some text → notes s' = Some text) ∧
  (first_time s = false → first_time s' = false).

Definition page_step_world (w w' : world) : Prop := page_step (ss w) (ss w').

(** A filled question cache is kept. *)
Definition cache_kept (w w' : world) : Prop :=
  ∀ all, cache w = Some all → cache w' = Some all.

(** A computation that never asks for a re-execution. *)
Definition calm {A} (m : script A) : Prop := ∀ w, (m w).1 ≠ Rerun.

(** An action that is not an invocation of the chain [c]. *)
Definition not_call (c : chain) (x : effect) : Prop := ∀ arg, x ≠ Invoke c arg.

(** The bootstrap launches the service: it is not found running and the
    process starts. *)
Definition launches (e : env) : bool :=
  negb (App.is_ollama_running e) &&
  bool_decide (popen e ["ollama"; "serve"] = None).

(** The store after the bootstrap. *)
Definition booted (e : env) (s : session_state) : session_state :=
  if launches e then set_status "Online" s else s.

(** The radio value of a submission. *)
Definition chosen (e : env) : string := default "" (radio e).

(** The number of submissions in [es] whose chosen label is mapped to true
    by the question at the same position of [qs]. *)
Fixpoint tally (qs : list QuestionItem) (es : list env) : nat :=
  match qs, es with
  | q :: qs', e :: es' => gain q (chosen e) + tally qs' es'
  | _, _ => 0
  end.

(** With the question cache filled, the cache is kept and the questions
    chain is not invoked. *)
Definition cache_hit (w w' : world) : Prop :=
  ∀ all, cache w = Some all →
    cache w' = Some all ∧
    ∃ o, out w' = out w ++ o ∧ Forall (not_call QuestionsChain) o.

(** With a quiz stored, the quiz chain is not invoked. *)
Definition quiz_kept (w w' : world) : Prop :=
  ∀ qs, quiz_questions (ss w) = Some qs →
    quiz_questions (ss w') = Some qs ∧
    ∃ o, out w' = out w ++ o ∧ Forall (not_call QuizChain) o.

(** How a logged message is drawn again: under its role when that is
    "user", as the assistant otherwise. *)
Definition replayed (m : message) : effect :=
  ChatMessage (if bool_decide (role m = "user") then "user" else "assistant")
    (content m).

(** The flag is up only with the index at or beyond the number of stored
    questions. *)
Definition completed_at_end (s : session_state) : Prop :=
  quiz_completed s = true →
  ∃ qs, quiz_questions s = Some qs ∧ length qs ≤ current_question_idx s.

(** ** Further sample data *)

Module Visit.

(** The answer chain fails on the question [ques]. *)
Definition failing_on (ques : string) (e : env) : env :=
  {| requests_get := requests_get e; popen := popen e;
     getenv := getenv e;
     pressed := pressed e; selected := selected e;
     text_input := text_input e; text_area := text_area e;
     notes_chain := notes_chain e; model_questions := model_questions e;
     answer_chain := λ q,
       if bool_decide (q = ques) then inl (Py.RemoteError "rate limit reached")
       else answer_chain e q;
     model_quiz := model_quiz e |}.

(** The model returns no quiz record. *)
Definition no_records (e : env) : env :=
  {| requests_get := requests_get e; popen := popen e;
     getenv := getenv e;
     pressed := pressed e; selected := selected e;
     text_input := text_input e; text_area := text_area e;
     notes_chain := notes_chain e; model_questions := model_questions e;
     answer_chain := answer_chain e;
     model_quiz := λ _, inr {| thinking_content := "thinking";
                               response_content := [] |} |}.

(** The session with a key and a topic, after 'Generate Notes'. *)
Definition with_notes : session :=
  (interact 2 (Sample.press "Generate Notes" None Sample.quiet) NotesPage
     Sample.with_topic).2.

(** ... and after 'Generate Question Answers'. *)
Definition with_answers : session :=
  (interact 2 (Sample.press "Generate Question Answers" None Sample.quiet)
     QnaPage Sample.with_topic).2.

(** The two submissions of a sample quiz: the first right, the second
    wrong. *)
Definition answers : list env :=
  [ Sample.press "Next Question" (Some OptionA) Sample.quiet;
    Sample.press "Next Question" (Some OptionD) Sample.quiet ].

(** The sample quiz, taken to its end. *)
Definition finished : session := play 2 answers Sample.started.

(** A session with a key whose stored quiz starts with the record of three
    options. *)
Definition blocked : session :=
  {| store := Some (set_quiz_questions (Some [Sample.short; Sample.train])
                      (set_groq_api_key (Some "gsk_key") App.session_defaults));
     questions_cache := None |}.

End Visit.

(** ** Vocabulary: what a page leaves alone *)

(** The keys of the store that the page [pg] does not write, the status
    aside. *)
Definition foreign (pg : page) (s : session_state)
  : option string * option string * bool * option string * list message *
    (option (list QuestionItem) * nat * nat * gset nat * bool * nat) :=
  match pg with
  | HomePage =>
      (None, None, false, notes s, messages s, quiz_part s)
  | NotesPage =>
      (user_input s, groq_api_key s, first_time s, None, messages s, quiz_part s)
  | QnaPage =>
      (user_input s, groq_api_key s, first_time s, notes s, [], quiz_part s)
  | QuizPage =>
      (user_input s, groq_api_key s, first_time s, notes s, messages s,
       quiz_part App.session_defaults)
  end.

(** The world keeps the keys that [pg] does not write. *)
Definition keeps_foreign (pg : page) (w w' : world) : Prop :=
  foreign pg (ss w') = foreign pg (ss w).

(** An action that is not the invocation of a chain. *)
Definition no_call (x : effect) : Prop := ∀ c arg, x ≠ Invoke c arg.

Definition greeting : string :=
  "Great! now head over to the sidebar and start generating!".

(** * Proofs *)

(** ** Running computations *)

(** The radio widget always has a value, one of its four options. *)
Lemma radio_value e : radio e = Some (option_label (default OptionA (selected e))).
Proof. reflexivity. Qed.

Lemma option_label_choice o : option_label o ∈ choices.
Proof. unfold choices. destruct o; simpl; rewrite !elem_of_cons; auto 6. Qed.

Lemma radio_choice e : ∃ c, radio e = Some c ∧ c ∈ choices.
Proof. eexists. split; [apply radio_value | apply option_label_choice]. Qed.

#[local] Opaque radio.

Ltac unmonad :=
  unfold mbind, script_bind, mret, script_ret, bind, ret, state, modify, emit,
    rerun, raise, button, call, write_stream, index, cached, memoize in *.

Lemma choices_spec c : c ∈ choices ↔ c = "A" ∨ c = "B" ∨ c = "C" ∨ c = "D".
Proof. unfold choices. rewrite !elem_of_cons, elem_of_nil. tauto. Qed.

Lemma current_persist w : current (persist w) = ss w.
Proof. reflexivity. Qed.

Lemma ss_world_of σ : ss (world_of σ) = current σ.
Proof. reflexivity. Qed.

Lemma four_options_keys q :
  four_options q →
  ∃ k0 k1 k2 k3,
    Py.keys (options q) !! 0 = Some k0 ∧ Py.keys (options q) !! 1 = Some k1 ∧
    Py.keys (options q) !! 2 = Some k2 ∧ Py.keys (options q) !! 3 = Some k3.
Proof.
  unfold four_options, Py.keys. intros Hlen.
  destruct (options q) as [|[k0 ?] [|[k1 ?] [|[k2 ?] [|[k3 ?] d]]]]; simpl in *; try lia.
  by exists k0, k1, k2, k3.
Qed.

Lemma keys_four_options q k :
  Py.keys (options q) !! 3 = Some k → four_options q.
Proof.
  intros H%lookup_lt_Some. unfold four_options, Py.keys in *.
  rewrite length_fmap in H. lia.
Qed.

(** A displayed label is a key of the mapping. *)
Lemma get_keys (d : Py.dict) i k :
  Py.keys d !! i = Some k → is_Some (Py.get d k).
Proof.
  revert i. induction d as [|[k' v] d IH]; intros i Hi; [done|].
  simpl. case_bool_decide; [eauto|].
  destruct i as [|i]; simpl in Hi; [congruence | eauto].
Qed.

(** ** The quiz step, case by case *)

Ltac resting := (split; [done | split; [done |]]); left; split; [done | by left].

Lemma quiz_cases e w qs r w' :
  quiz_questions (ss w) = Some qs →
  Quiz.quiz e w = (r, w') →
  quiz_questions (ss w') = Some qs ∧ total_questions (ss w') = length qs ∧
  (rests (ss w) (ss w') ∨ advances e (ss w) (ss w')).
Proof.
  intros Hqs H. destruct w as [s o c]. simpl in *.
  unfold Quiz.quiz, Quiz.answer_of, Quiz.lookup, Quiz.add_attempted in H.
  unmonad. simpl in H. rewrite Hqs in H. simpl in H.
  case_bool_decide as Hlen; simpl in H.
  { simplify_eq/=. resting. }
  destruct (quiz_completed s) eqn:Hdone; simpl in H.
  { rewrite Hdone in H. simplify_eq/=. resting. }
  case_bool_decide as Hidx; simpl in H.
  2:{ case_bool_decide; simpl in H; [|lia]. simplify_eq/=.
      (split; [done | split; [done |]]). left. split; [done|]. right.
      split; [done|]. exists qs. split; [done | simpl; lia]. }
  destruct (qs !! current_question_idx s) as [q|] eqn:Hq; simpl in H;
    [| simplify_eq/=; resting].
  destruct (Py.keys (options q) !! 0) as [k0|] eqn:H0; simpl in H;
    [| simplify_eq/=; resting].
  destruct (Py.keys (options q) !! 1) as [k1|] eqn:H1; simpl in H;
    [| simplify_eq/=; resting].
  destruct (Py.keys (options q) !! 2) as [k2|] eqn:H2; simpl in H;
    [| simplify_eq/=; resting].
  destruct (Py.keys (options q) !! 3) as [k3|] eqn:H3; simpl in H;
    [| simplify_eq/=; resting].
  case_bool_decide as Hpress; simpl in H.
  2:{ case_bool_decide; [lia|]. simpl in H. rewrite Hdone in H.
      simplify_eq/=. resting. }
  destruct (Py.truthy (radio e)) eqn:Htruthy; simpl in H;
    [| simplify_eq/=; resting].
  pose proof (keys_four_options _ _ H3) as Hfour.
  destruct (radio e) as [ch|] eqn:Hradio; [|done].
  assert (Hadv : ∀ k v s', ch ∈ choices →
     Py.keys (options q) !! position ch = Some k →
     Py.get (options q) k = Some v →
     progress s' = ((if v then score s + 1 else score s),
                    attempted_questions s ∪ {[current_question_idx s]},
                    current_question_idx s + 1) →
     quiz_completed s' = false →
     advances e s s').
  { intros k v s' Hch Hk Hv Hp Hc. exists qs, q, ch. split_and?; try done.
    rewrite Hp. unfold gain. rewrite Hk, Hv.
    destruct v; [done | by rewrite Nat.add_0_r]. }
  repeat case_bool_decide; simplify_eq/=.
  1-4: match type of H with
       | context [Py.get ?d ?k] =>
           destruct (Py.get d k) as [v|] eqn:Hget; simpl in H;
           [ pose proof (Hadv k v) as Hadv'; destruct v; simpl in H;
             simplify_eq/=; (split; [done | split; [done |]]); right;
             (apply Hadv';
              [ apply choices_spec; auto | assumption | assumption
              | reflexivity | assumption ])
           | simplify_eq/=; resting ]
       end.
  resting.
Qed.

(** A counted submission: the execution stops with [st.rerun()] after the
    three updates. *)
Lemma quiz_advances e w qs q c :
  in_progress (ss w) qs q → four_options q → submits e (Some c) → c ∈ choices →
  ∃ w', Quiz.quiz e w = (Rerun, w') ∧
        quiz_part (ss w') =
          (Some qs, current_question_idx (ss w) + 1, score (ss w) + gain q c,
           attempted_questions (ss w) ∪ {[current_question_idx (ss w)]},
           false, length qs).
Proof.
  intros (Hqs & Hdone & Hq) Hfour [Hpress Hradio] Hc.
  destruct (four_options_keys q Hfour) as (k0 & k1 & k2 & k3 & H0 & H1 & H2 & H3).
  pose proof (lookup_lt_Some _ _ _ Hq) as Hidx.
  destruct w as [s o ca]. simpl in *.
  unfold Quiz.quiz, Quiz.answer_of, Quiz.lookup, Quiz.add_attempted.
  unmonad. simpl. rewrite Hqs. simpl.
  rewrite bool_decide_eq_false_2 by lia. simpl. rewrite Hdone. simpl.
  rewrite bool_decide_eq_true_2 by done. simpl. rewrite Hq. simpl.
  rewrite H0. simpl. rewrite H1. simpl. rewrite H2. simpl. rewrite H3. simpl.
  rewrite Hpress, Hradio. simpl.
  assert (Hgain : ∀ k v, Py.keys (options q) !! position c = Some k →
            Py.get (options q) k = Some v →
            gain q c = if v then 1 else 0).
  { intros k v Hk Hv. unfold gain. rewrite Hk, Hv. by destruct v. }
  remember (gain q c) as g eqn:Hg. clear Hg.
  apply choices_spec in Hc as [-> | [-> | [-> | ->]]]; simpl;
    match goal with
    | Hk : Py.keys ?d !! ?i = Some ?k |- context [Py.get ?d ?k] =>
        let Hget := fresh in
        destruct (get_keys d i k Hk) as [v Hget];
        rewrite Hget; rewrite (Hgain k v) by assumption;
        destruct v; simpl; eexists; (split; [reflexivity|]);
        unfold quiz_part; simpl; by rewrite ?Nat.add_0_r, Hqs, Hdone
    end.
Qed.

(** No submission: the question is displayed and the execution finishes. *)
Lemma quiz_idle e w qs q :
  in_progress (ss w) qs q → four_options q → pressed e ≠ Some "Next Question" →
  ∃ w', Quiz.quiz e w = (Ret (), w') ∧
        ss w' = set_total_questions (length qs) (ss w).
Proof.
  intros (Hqs & Hdone & Hq) Hfour Hpress.
  destruct (four_options_keys q Hfour) as (k0 & k1 & k2 & k3 & H0 & H1 & H2 & H3).
  pose proof (lookup_lt_Some _ _ _ Hq) as Hidx.
  destruct w as [s o ca]. simpl in *.
  unfold Quiz.quiz. unmonad. simpl. rewrite Hqs. simpl.
  rewrite bool_decide_eq_false_2 by lia. simpl. rewrite Hdone. simpl.
  rewrite bool_decide_eq_true_2 by done. simpl. rewrite Hq. simpl.
  rewrite H0. simpl. rewrite H1. simpl. rewrite H2. simpl. rewrite H3. simpl.
  rewrite (bool_decide_eq_false_2 (pressed e = _)) by done. simpl.
  rewrite bool_decide_eq_false_2 by lia. simpl. rewrite Hdone.
  by eexists.
Qed.

(** The index has reached the number of questions: the flag is set and the
    execution stops with [st.rerun()]. *)
Lemma quiz_completes e w qs :
  quiz_questions (ss w) = Some qs → qs ≠ [] → quiz_completed (ss w) = false →
  length qs ≤ current_question_idx (ss w) →
  ∃ w', Quiz.quiz e w = (Rerun, w') ∧
        ss w' = set_quiz_completed true (set_total_questions (length qs) (ss w)).
Proof.
  intros Hqs Hne Hdone Hidx. destruct w as [s o ca]. simpl in *.
  unfold Quiz.quiz. unmonad. simpl. rewrite Hqs. simpl.
  rewrite bool_decide_eq_false_2 by (by destruct qs). simpl. rewrite Hdone. simpl.
  rewrite bool_decide_eq_false_2 by lia. simpl.
  rewrite bool_decide_eq_true_2 by done. simpl.
  by eexists.
Qed.

(** The flag is set: the summary is displayed and the execution finishes. *)
Lemma quiz_summary e w qs :
  quiz_questions (ss w) = Some qs → qs ≠ [] → quiz_completed (ss w) = true →
  ∃ w', Quiz.quiz e w = (Ret (), w') ∧
        ss w' = set_total_questions (length qs) (ss w).
Proof.
  intros Hqs Hne Hdone. destruct w as [s o ca]. simpl in *.
  unfold Quiz.quiz. unmonad. simpl. rewrite Hqs. simpl.
  rewrite bool_decide_eq_false_2 by (by destruct qs). simpl.
  rewrite Hdone. simpl. rewrite Hdone. by eexists.
Qed.

(** The two ways the display fails. *)
Lemma quiz_empty e w :
  quiz_questions (ss w) = Some [] →
  (Quiz.quiz e w).1 = Raise Py.ZeroDivisionError.
Proof.
  intros Hqs. destruct w as [s o ca]. simpl in *.
  unfold Quiz.quiz. unmonad. simpl. by rewrite Hqs.
Qed.

Lemma quiz_few_options e w qs q :
  in_progress (ss w) qs q → ¬ four_options q →
  (Quiz.quiz e w).1 = Raise Py.IndexError.
Proof.
  intros (Hqs & Hdone & Hq) Hfew.
  pose proof (lookup_lt_Some _ _ _ Hq) as Hidx.
  destruct w as [s o ca]. simpl in *.
  unfold Quiz.quiz. unmonad. simpl. rewrite Hqs. simpl.
  rewrite bool_decide_eq_false_2 by lia. simpl. rewrite Hdone. simpl.
  rewrite bool_decide_eq_true_2 by done. simpl. rewrite Hq. simpl.
  unfold four_options, Py.keys in *.
  destruct (options q) as [|[k0 ?] [|[k1 ?] [|[k2 ?] [|[k3 ?] d]]]]; simpl in *;
    try done; lia.
Qed.

(** The display is total on a quiz whose records all have four options,
    whatever the radio widget returns among its values. *)
Lemma quiz_never_raises e w qs ex :
  quiz_questions (ss w) = Some qs → qs ≠ [] → Forall four_options qs →
  (∀ c, radio e = Some c → c ∈ choices) →
  (Quiz.quiz e w).1 ≠ Raise ex.
Proof.
  intros Hqs Hne Hall Hradio.
  destruct (quiz_completed (ss w)) eqn:Hdone.
  { destruct (quiz_summary e w qs) as (w' & -> & _); done. }
  destruct (decide (current_question_idx (ss w) < length qs)) as [Hidx|Hidx].
  2:{ destruct (quiz_completes e w qs) as (w' & -> & _); try done. lia. }
  destruct (lookup_lt_is_Some_2 _ _ Hidx) as [q Hq].
  assert (Hfour : four_options q).
  { rewrite Forall_forall in Hall. apply Hall. by eapply list_elem_of_lookup_2. }
  destruct (decide (pressed e = Some "Next Question")) as [Hpress|Hpress].
  2:{ destruct (quiz_idle e w qs q) as (w' & -> & _); done. }
  destruct (radio e) as [c|] eqn:Hc.
  { destruct (quiz_advances e w qs q c) as (w' & -> & _); try done. by apply Hradio. }
  (* a widget without a value *)
  destruct (four_options_keys q Hfour) as (k0 & k1 & k2 & k3 & H0 & H1 & H2 & H3).
  destruct w as [s o ca]. simpl in *.
  unfold Quiz.quiz. unmonad. simpl. rewrite Hqs. simpl.
  rewrite bool_decide_eq_false_2 by lia. simpl. rewrite Hdone. simpl.
  rewrite bool_decide_eq_true_2 by done. simpl. rewrite Hq. simpl.
  rewrite H0. simpl. rewrite H1. simpl. rewrite H2. simpl. rewrite H3. simpl.
  rewrite Hpress, Hc. simpl. done.
Qed.

(** ** Computations that leave the quiz part alone *)

Section frames.
Context {A B : Type}.

Lemma frames_ret (a : A) : frames (mret a).
Proof. by intros w. Qed.

Lemma frames_bind (m : script A) (k : A → script B) :
  frames m → (∀ a, frames (k a)) → frames (m ≫= k).
Proof.
  intros Hm Hk w. unfold mbind, script_bind, bind.
  specialize (Hm w). destruct (m w) as [[a| |ex] w1]; simpl in *; try done.
  by rewrite Hk.
Qed.

Lemma frames_raise ex : frames (raise (A:=A) ex).
Proof. by intros w. Qed.

Lemma frames_rerun : frames (rerun (A:=A)).
Proof. by intros w. Qed.

Lemma frames_call c arg (r : Py.exception + A) : frames (call c arg r).
Proof. intros w. unfold call. unmonad. by destruct r. Qed.

Lemma frames_index (l : list A) i : frames (index l i).
Proof. intros w. unfold index. by destruct (l !! i). Qed.

End frames.

Lemma frames_for_each {A} (xs : list A) (body : A → script unit) :
  (∀ x, frames (body x)) → frames (for_each xs body).
Proof.
  intros Hbody. induction xs as [|x xs IH]; simpl.
  - apply frames_ret.
  - apply frames_bind; [apply Hbody | by intros _].
Qed.

Lemma frames_state : frames state.
Proof. by intros w. Qed.

Lemma frames_emit x : frames (emit x).
Proof. by intros w. Qed.

Lemma frames_modify f :
  (∀ s, quiz_part (f s) = quiz_part s) → frames (modify f).
Proof. intros Hf w. apply Hf. Qed.

Lemma frames_button e label : frames (button e label).
Proof. by intros w. Qed.

Lemma frames_write_stream chunks : frames (write_stream chunks).
Proof. by intros w. Qed.

Lemma frames_cached : frames cached.
Proof. by intros w. Qed.

Lemma frames_memoize qs : frames (memoize qs).
Proof. by intros w. Qed.

Create HintDb frames.
#[local] Hint Resolve frames_ret frames_raise frames_rerun frames_call
  frames_index frames_state frames_emit frames_button frames_write_stream
  frames_cached frames_memoize : frames.

Ltac frame :=
  repeat first
    [ progress intros
    | apply frames_bind
    | apply frames_for_each
    | apply frames_modify; by intros []
    | solve [auto with frames]
    | match goal with
      | |- frames (if ?b then _ else _) => destruct b
      | |- frames (match ?x with _ => _ end) => destruct x
      end ].

Lemma frames_ChatGroq e key : frames (ChatGroq e key).
Proof. unfold ChatGroq. frame. Qed.

Lemma frames_notes_qwq e : frames (Notes.qwq e).
Proof. unfold Notes.qwq. pose proof (frames_ChatGroq e). frame. Qed.

Lemma frames_qna_qwq e : frames (QnA.qwq e).
Proof. unfold QnA.qwq. pose proof (frames_ChatGroq e). frame. Qed.

Lemma frames_quiz_qwq e : frames (Quiz.qwq e).
Proof. unfold Quiz.qwq. pose proof (frames_ChatGroq e). frame. Qed.

#[local] Hint Resolve frames_ChatGroq frames_notes_qwq frames_qna_qwq
  frames_quiz_qwq : frames.

Lemma frames_start_ollama e : frames (App.start_ollama e).
Proof. unfold App.start_ollama. frame. Qed.

Lemma frames_bootstrap e : frames (App.bootstrap e).
Proof. unfold App.bootstrap. pose proof (frames_start_ollama e). frame. Qed.

Lemma frames_main e : frames (Main.page e).
Proof. unfold Main.page. frame. Qed.

Lemma frames_notes e : frames (Notes.page e).
Proof. unfold Notes.page, Notes.body. frame. Qed.

Lemma frames_qna e : frames (QnA.page e).
Proof.
  unfold QnA.page, QnA.body, QnA.generate_qna, QnA.ask, QnA.cache_questions,
    QnA.append_message.
  frame.
Qed.

(** ** One execution and the quiz part *)

Lemma quiz_part_eq s1 s2 :
  quiz_part s1 = quiz_part s2 ↔
  quiz_questions s1 = quiz_questions s2 ∧
  current_question_idx s1 = current_question_idx s2 ∧
  score s1 = score s2 ∧
  attempted_questions s1 = attempted_questions s2 ∧
  quiz_completed s1 = quiz_completed s2 ∧
  total_questions s1 = total_questions s2.
Proof.
  unfold quiz_part. split.
  - intros [= -> -> -> -> -> ->]. done.
  - intros (-> & -> & -> & -> & -> & ->). done.
Qed.

Lemma evolves_from e pg s1 s s' :
  quiz_part s1 = quiz_part s → evolves e pg s1 s' → evolves e pg s s'.
Proof.
  intros Hs%quiz_part_eq. destruct Hs as (Hq & Hi & Hsc & Ha & Hc & Ht).
  unfold evolves, rests, advances, in_progress, progress, quiz_part.
  rewrite Hq, Hi, Hsc, Ha, Hc, Ht. done.
Qed.

(** ** The construction of the chat model *)

Lemma ChatGroq_run e key w :
  ChatGroq e key w =
    if Py.truthy key || bool_decide (is_Some (getenv e "GROQ_API_KEY"))
    then (Ret (), w) else (Raise Py.GroqError, w).
Proof.
  unfold ChatGroq. destruct (Py.truthy key) eqn:Hkey; simpl.
  - by destruct key.
  - by destruct (getenv e "GROQ_API_KEY").
Qed.

Lemma notes_page_run e w :
  Notes.page e w =
    if has_key e (ss w) then Notes.body e w else (Raise Py.GroqError, w).
Proof.
  unfold Notes.page, Notes.qwq, has_key. unmonad. rewrite ChatGroq_run.
  by destruct (_ || _).
Qed.

Lemma qna_page_run e w :
  QnA.page e w =
    if has_key e (ss w) then QnA.body e w else (Raise Py.GroqError, w).
Proof.
  unfold QnA.page, QnA.qwq, has_key. unmonad. rewrite ChatGroq_run.
  by destruct (_ || _).
Qed.

Lemma quiz_page_run e w :
  Quiz.page e w =
    if has_key e (ss w) then Quiz.body e w else (Raise Py.GroqError, w).
Proof.
  unfold Quiz.page, Quiz.qwq, has_key. unmonad. rewrite ChatGroq_run.
  by destruct (_ || _).
Qed.

Lemma quiz_body_evolves e w : evolves e QuizPage (ss w) (ss (Quiz.body e w).2).
Proof.
  destruct w as [s o ca]. unfold Quiz.body. unmonad. simpl.
  destruct (quiz_questions s) as [qs|] eqn:Hqs.
  - destruct (Quiz.quiz e _) as [r w'] eqn:Hquiz.
    apply quiz_cases with (qs := qs) in Hquiz as (? & ? & ?); [|done].
    right. split; [done|]. exists qs. simpl in *. rewrite Hqs. auto.
  - destruct (bool_decide (pressed e = Some "Generate Quiz")) eqn:Hpress; simpl;
      [apply bool_decide_eq_true_1 in Hpress | by left].
    unmonad. simpl.
    destruct (Quiz.quiz_chain e (user_input s)) as [ex|qs]; simpl; [by left|].
    destruct (Quiz.quiz e _) as [r w'] eqn:Hquiz.
    apply quiz_cases with (qs := qs) in Hquiz as (Hqs' & Htot & Hcase); [|done].
    simpl in Hcase.
    assert (Hev : evolves e QuizPage s (ss w')).
    { right. split; [done|]. exists qs. split_and?; auto.
      destruct Hcase as [Hrest | (? & ? & ? & _ & _ & [Hp _] & _)]; [by left|].
      congruence. }
    by destruct r.
Qed.

Lemma quiz_page_evolves e w : evolves e QuizPage (ss w) (ss (Quiz.page e w).2).
Proof.
  rewrite quiz_page_run. destruct (has_key e (ss w)); [|by left].
  apply quiz_body_evolves.
Qed.

Lemma bootstrap_returns e w : (App.bootstrap e w).1 = Ret ().
Proof.
  destruct w as [s o ca]. unfold App.bootstrap, App.start_ollama. unmonad. simpl.
  destruct (negb _); [|done].
  destruct (popen e _); simpl; try case_bool_decide; done.
Qed.

Lemma app_run e pg w : app e pg w = run e pg (App.bootstrap e w).2.
Proof.
  unfold app, mbind, script_bind, bind.
  pose proof (bootstrap_returns e w) as H.
  destruct (App.bootstrap e w) as [r w1]. simpl in *. by subst r.
Qed.

Lemma app_evolves e pg w : evolves e pg (ss w) (ss (app e pg w).2).
Proof.
  rewrite app_run. pose proof (frames_bootstrap e w) as Hb.
  destruct pg; simpl.
  - left. by rewrite frames_main.
  - left. by rewrite frames_notes.
  - left. by rewrite frames_qna.
  - eapply evolves_from; [exact Hb | apply quiz_page_evolves].
Qed.

Lemma execute_evolves e pg σ :
  evolves e pg (current σ) (current (execute e pg σ).2).
Proof. apply (app_evolves e pg (world_of σ)). Qed.

(** ** Consequences for the store *)

Lemma size_below (X : gset nat) n : (∀ i, i ∈ X → i < n) → size X ≤ n.
Proof.
  intros H. rewrite <-(size_set_seq (C:=gset nat) 0 n).
  apply subseteq_size. intros i Hi. apply elem_of_set_seq. split; [lia|].
  apply H in Hi. lia.
Qed.

Lemma gain_le_1 q c : gain q c ≤ 1.
Proof. unfold gain. repeat case_match; lia. Qed.

Lemma evolves_consistent e pg s s' :
  evolves e pg s s' → consistent s → consistent s'.
Proof.
  intros [Hsame | (_ & qs & Hwas & Hqs' & Htot & Hcase)] (Hscore & Hatt & Hquiz).
  - apply quiz_part_eq in Hsame as (Hq & Hi & Hsc & Ha & Hc & Ht).
    unfold consistent. by rewrite Hq, Hi, Hsc, Ha, Ht.
  - unfold consistent. rewrite Hqs'.
    destruct Hcase as [[Hp _] | (qs0 & q & c & (Hqs & _ & Hq) & _ & _ & _ & Hp & _)];
      unfold progress in Hp; injection Hp as Hsc Ha Hi.
    + rewrite Hsc, Ha, Hi. split_and?; try done.
      destruct Hwas as [Hnone | Hsome].
      * rewrite Hnone in Hquiz. lia.
      * rewrite Hsome in Hquiz. lia.
    + rewrite Hsc, Ha, Hi.
      assert (qs0 = qs) as -> by (destruct Hwas; congruence).
      apply lookup_lt_Some in Hq.
      split_and?; try done; try lia.
      * rewrite size_union by (apply disjoint_singleton_r; intros ?%Hatt; lia).
        rewrite size_singleton. pose proof (gain_le_1 q c). lia.
      * intros i [?%Hatt | ->%elem_of_singleton]%elem_of_union; lia.
Qed.

Lemma evolves_index e pg s s' :
  evolves e pg s s' → current_question_idx s ≤ current_question_idx s'.
Proof.
  intros [Hsame | (_ & qs & _ & _ & _ & Hcase)].
  - apply quiz_part_eq in Hsame as (_ & -> & _). done.
  - destruct Hcase as [[Hp _] | (? & ? & ? & _ & _ & _ & _ & Hp & _)];
      unfold progress in Hp; injection Hp as _ _ ->; lia.
Qed.

Lemma evolves_completed e pg s s' :
  evolves e pg s s' → quiz_completed s = true → quiz_completed s' = true.
Proof.
  intros [Hsame | (_ & qs & _ & _ & _ & Hcase)] Hdone.
  - apply quiz_part_eq in Hsame as (_ & _ & _ & _ & -> & _). done.
  - destruct Hcase as [[_ [-> | [-> _]]] | (? & ? & ? & (_ & Hc & _) & _)];
      congruence.
Qed.

Lemma evolves_progress e pg s s' :
  evolves e pg s s' → pressed e ≠ Some "Next Question" → progress s' = progress s.
Proof.
  intros [Hsame | (_ & qs & _ & _ & _ & Hcase)] Hpress.
  - apply quiz_part_eq in Hsame as (_ & Hi & Hsc & Ha & _).
    unfold progress. by rewrite Hi, Hsc, Ha.
  - destruct Hcase as [[Hp _] | (? & ? & ? & _ & _ & [Hp _] & _)]; done.
Qed.

Lemma consistent_defaults : consistent App.session_defaults.
Proof.
  unfold consistent. simpl. split_and?; try done; set_solver.
Qed.

Lemma reachable_consistent σ : reachable σ → consistent (current σ).
Proof.
  induction 1 as [|e pg σ _ IH].
  - apply consistent_defaults.
  - eapply evolves_consistent; [apply execute_evolves | exact IH].
Qed.

(** ** Computations that respect a relation on the world *)

Section steady.
Context (R : relation world) `{!PreOrder R}.

Lemma steady_still {A} (m : script A) : (∀ w, (m w).2 = w) → steady R m.
Proof. intros H w. by rewrite H. Qed.

Lemma steady_ret {A} (a : A) : steady R (mret a).
Proof. by apply steady_still. Qed.

Lemma steady_raise {A} ex : steady R (raise (A:=A) ex).
Proof. by apply steady_still. Qed.

Lemma steady_rerun {A} : steady R (rerun (A:=A)).
Proof. by apply steady_still. Qed.

Lemma steady_state : steady R state.
Proof. by apply steady_still. Qed.

Lemma steady_cached : steady R cached.
Proof. by apply steady_still. Qed.

Lemma steady_index {A} (l : list A) i : steady R (index l i).
Proof. apply steady_still. intros w. unfold index. by destruct (l !! i). Qed.

Lemma steady_ChatGroq e key : steady R (ChatGroq e key).
Proof. apply steady_still. intros w. rewrite ChatGroq_run. by destruct (_ || _). Qed.

Lemma steady_bind {A B} (m : script A) (k : A → script B) :
  steady R m → (∀ a, steady R (k a)) → steady R (m ≫= k).
Proof.
  intros Hm Hk w. unfold mbind, script_bind, bind.
  specialize (Hm w). destruct (m w) as [[a| |ex] w1]; simpl in *; try done.
  by etrans; [exact Hm | apply Hk].
Qed.

Lemma steady_for_each {A} (xs : list A) (body : A → script unit) :
  (∀ x, steady R (body x)) → steady R (for_each xs body).
Proof.
  intros Hbody. induction xs as [|x xs IH]; simpl.
  - apply steady_ret.
  - apply steady_bind; [apply Hbody | by intros _].
Qed.
End steady.

Lemma steady_emit R x :
  (∀ w, R w {| ss := ss w; out := out w ++ [x]; cache := cache w |}) →
  steady R (emit x).
Proof. intros H w. apply H. Qed.

Lemma steady_modify R f :
  (∀ w, R w {| ss := f (ss w); out := out w; cache := cache w |}) →
  steady R (modify f).
Proof. intros H w. apply H. Qed.

Lemma steady_memoize R qs :
  (∀ w, R w {| ss := ss w; out := out w; cache := Some qs |}) →
  steady R (memoize qs).
Proof. intros H w. apply H. Qed.

(** Decomposes a computation; [tac] settles what [emit], [modify] and
    [memoize] have to respect. *)
Ltac steadying tac :=
  repeat first
    [ progress intros
    | assumption
    | apply steady_bind
    | apply steady_for_each
    | apply steady_modify; tac
    | apply steady_emit; tac
    | apply steady_memoize; tac
    | apply steady_ret | apply steady_raise | apply steady_rerun
    | apply steady_state | apply steady_cached | apply steady_index
    | apply steady_ChatGroq
    | match goal with
      | |- PreOrder _ => apply _
      | |- steady _ (if ?b then _ else _) => destruct b
      | |- steady _ (match ?x with _ => _ end) => destruct x
      end ].

(** ** What a page leaves alone in the store *)

#[local] Instance keeps_foreign_preorder pg : PreOrder (keeps_foreign pg).
Proof.
  split; unfold keeps_foreign; [by intros w | intros w1 w2 w3; congruence].
Qed.

Ltac foreign_keeping := intros [[] ? ?]; reflexivity.

Lemma keeps_foreign_run e pg : steady (keeps_foreign pg) (run e pg).
Proof.
  destruct pg; simpl.
  - unfold Main.page, button, call, write_stream. steadying foreign_keeping.
  - unfold Notes.page, Notes.body, button, call, write_stream. steadying foreign_keeping.
  - unfold QnA.page, QnA.body, QnA.generate_qna, QnA.ask, QnA.cache_questions,
      QnA.append_message, button, call, write_stream.
    steadying foreign_keeping.
  - unfold Quiz.page, Quiz.body, Quiz.quiz, Quiz.answer_of, Quiz.lookup,
      Quiz.add_attempted, button, call, write_stream.
    steadying foreign_keeping.
Qed.

Lemma keeps_foreign_bootstrap e pg : steady (keeps_foreign pg) (App.bootstrap e).
Proof.
  unfold App.bootstrap, App.start_ollama.
  steadying ltac:(intros [[] ? ?]; by destruct pg).
Qed.

Lemma execute_foreign e pg σ :
  foreign pg (current (execute e pg σ).2) = foreign pg (current σ).
Proof.
  change (current (execute e pg σ).2) with (ss (app e pg (world_of σ)).2).
  rewrite app_run.
  pose proof (keeps_foreign_run e pg (App.bootstrap e (world_of σ)).2) as H.
  unfold keeps_foreign in H. rewrite H.
  apply (keeps_foreign_bootstrap e pg (world_of σ)).
Qed.

Lemma interact_foreign fuel e pg σ :
  foreign pg (current (interact fuel e pg σ).2) = foreign pg (current σ).
Proof.
  revert e σ. induction fuel as [|fuel IH]; intros e σ; cbn [interact];
    pose proof (execute_foreign e pg σ) as H;
    destruct (execute e pg σ) as [[] σ']; simpl in *; try done.
  by rewrite IH.
Qed.

(** The key of the store is written by the home page only. *)
Lemma foreign_key pg s s' :
  pg ≠ HomePage → foreign pg s' = foreign pg s → groq_api_key s' = groq_api_key s.
Proof. destruct pg; [done|..]; intros _ [= _ H _]; done. Qed.

Lemma has_key_ext e e' s s' :
  getenv e' = getenv e → groq_api_key s' = groq_api_key s →
  has_key e' s' = has_key e s.
Proof. unfold has_key. by intros -> ->. Qed.

(** ** Executions of the quiz page *)

Lemma quiz_body_stored e w qs :
  quiz_questions (ss w) = Some qs → Quiz.body e w = Quiz.quiz e w.
Proof.
  intros Hqs. destruct w as [s o ca]. simpl in *.
  unfold Quiz.body. unmonad. simpl. by rewrite Hqs.
Qed.

Lemma quiz_page_stored e w qs :
  has_key e (ss w) = true →
  quiz_questions (ss w) = Some qs → Quiz.page e w = Quiz.quiz e w.
Proof.
  intros Hkey Hqs. rewrite quiz_page_run, Hkey. by apply (quiz_body_stored e w qs).
Qed.

Lemma in_progress_from s1 s qs q :
  quiz_part s1 = quiz_part s → in_progress s qs q → in_progress s1 qs q.
Proof.
  intros (Hq & Hi & _ & _ & Hc & _)%quiz_part_eq.
  unfold in_progress. by rewrite Hq, Hi, Hc.
Qed.

(** The world in which the page of an execution starts. *)
Lemma execute_quiz e σ :
  ∃ w, quiz_part (ss w) = quiz_part (current σ) ∧
       has_key e (ss w) = has_key e (current σ) ∧
       execute e QuizPage σ = ((Quiz.page e w).1, persist (Quiz.page e w).2).
Proof.
  exists (App.bootstrap e (world_of σ)).2. split_and?.
  - apply frames_bootstrap.
  - apply has_key_ext; [done|].
    apply (foreign_key QuizPage); [done|].
    apply (keeps_foreign_bootstrap e QuizPage (world_of σ)).
  - unfold execute, render. by rewrite app_run.
Qed.

Lemma execute_advances e σ qs q c :
  has_key e (current σ) = true →
  in_progress (current σ) qs q → four_options q → submits e (Some c) → c ∈ choices →
  ∃ σ', execute e QuizPage σ = (Rerun, σ') ∧
        quiz_part (current σ') =
          (Some qs, current_question_idx (current σ) + 1,
           score (current σ) + gain q c,
           attempted_questions (current σ) ∪ {[current_question_idx (current σ)]},
           false, length qs).
Proof.
  intros Hkey Hin Hfour Hsub Hc.
  destruct (execute_quiz e σ) as (w & Hw & Hk & ->). rewrite <-Hk in Hkey.
  pose proof (in_progress_from _ _ _ _ Hw Hin) as Hin'.
  rewrite (quiz_page_stored e w qs) by (done || apply Hin').
  destruct (quiz_advances e w qs q c) as (w' & -> & Hpart); try done.
  exists (persist w'). split; [done|]. rewrite current_persist, Hpart.
  apply quiz_part_eq in Hw as (_ & -> & -> & -> & _). done.
Qed.

Lemma execute_idle e σ qs q :
  has_key e (current σ) = true →
  in_progress (current σ) qs q → four_options q → pressed e ≠ Some "Next Question" →
  ∃ σ', execute e QuizPage σ = (Ret (), σ') ∧
        quiz_part (current σ') =
          (Some qs, current_question_idx (current σ), score (current σ),
           attempted_questions (current σ), false, length qs).
Proof.
  intros Hkey Hin Hfour Hpress.
  destruct (execute_quiz e σ) as (w & Hw & Hk & ->). rewrite <-Hk in Hkey.
  pose proof (in_progress_from _ _ _ _ Hw Hin) as Hin'.
  rewrite (quiz_page_stored e w qs) by (done || apply Hin').
  destruct (quiz_idle e w qs q) as (w' & -> & Hss); try done.
  exists (persist w'). split; [done|]. rewrite current_persist, Hss.
  destruct Hin' as (Hqs & Hdone & _).
  apply quiz_part_eq in Hw as (_ & <- & <- & <- & _).
  unfold quiz_part. simpl. by rewrite Hqs, Hdone.
Qed.

Lemma execute_completes e σ qs :
  has_key e (current σ) = true →
  quiz_questions (current σ) = Some qs → qs ≠ [] →
  quiz_completed (current σ) = false →
  length qs ≤ current_question_idx (current σ) →
  ∃ σ', execute e QuizPage σ = (Rerun, σ') ∧
        quiz_part (current σ') =
          (Some qs, current_question_idx (current σ), score (current σ),
           attempted_questions (current σ), true, length qs).
Proof.
  intros Hkey Hqs Hne Hdone Hidx.
  destruct (execute_quiz e σ) as (w & Hw & Hk & ->). rewrite <-Hk in Hkey.
  apply quiz_part_eq in Hw as (Hq & Hi & Hsc & Ha & Hc & _).
  rewrite <-Hq in Hqs. rewrite <-Hc in Hdone. rewrite <-Hi in Hidx.
  rewrite (quiz_page_stored e w qs) by done.
  destruct (quiz_completes e w qs) as (w' & -> & Hss); try done.
  exists (persist w'). split; [done|]. rewrite current_persist, Hss.
  unfold quiz_part. simpl. by rewrite Hqs, Hi, Hsc, Ha.
Qed.

Lemma execute_summary e σ qs :
  has_key e (current σ) = true →
  quiz_questions (current σ) = Some qs → qs ≠ [] →
  quiz_completed (current σ) = true →
  ∃ σ', execute e QuizPage σ = (Ret (), σ') ∧
        quiz_part (current σ') =
          (Some qs, current_question_idx (current σ), score (current σ),
           attempted_questions (current σ), true, length qs).
Proof.
  intros Hkey Hqs Hne Hdone.
  destruct (execute_quiz e σ) as (w & Hw & Hk & ->). rewrite <-Hk in Hkey.
  apply quiz_part_eq in Hw as (Hq & Hi & Hsc & Ha & Hc & _).
  rewrite <-Hq in Hqs. rewrite <-Hc in Hdone.
  rewrite (quiz_page_stored e w qs) by done.
  destruct (quiz_summary e w qs) as (w' & -> & Hss); try done.
  exists (persist w'). split; [done|]. rewrite current_persist, Hss.
  unfold quiz_part. simpl. by rewrite Hqs, Hi, Hsc, Ha, Hdone.
Qed.

(** ** Interactions *)

Lemma quiz_part_is s qq i sc a c t :
  quiz_part s = (qq, i, sc, a, c, t) ↔
  quiz_questions s = qq ∧ current_question_idx s = i ∧ score s = sc ∧
  attempted_questions s = a ∧ quiz_completed s = c ∧ total_questions s = t.
Proof.
  unfold quiz_part. split.
  - intros [= -> -> -> -> -> ->]. done.
  - intros (-> & -> & -> & -> & -> & ->). done.
Qed.


Lemma interact_unfold fuel e pg σ :
  interact fuel e pg σ =
    match (execute e pg σ).1, fuel with
    | Rerun, S fuel' => interact fuel' (released e) pg (execute e pg σ).2
    | _, _ => execute e pg σ
    end.
Proof. destruct fuel; cbn [interact]; by destruct (execute e pg σ) as [[] ?]. Qed.

Lemma interact_finished fuel e pg σ σ' :
  execute e pg σ = (Ret (), σ') → interact fuel e pg σ = (Ret (), σ').
Proof. intros H. rewrite interact_unfold, H. by destruct fuel. Qed.

(** The re-executions never count anything. *)
Lemma interact_progress fuel e pg σ :
  pressed e ≠ Some "Next Question" →
  progress (current (interact fuel e pg σ).2) = progress (current σ).
Proof.
  revert e σ. induction fuel as [|fuel IH]; intros e σ Hpress;
    rewrite interact_unfold;
    pose proof (evolves_progress _ _ _ _ (execute_evolves e pg σ) Hpress) as Hp.
  - by destruct (execute e pg σ).1.
  - destruct (execute e pg σ).1; try done. by rewrite IH.
Qed.

Lemma interact_progress_execute fuel e pg σ :
  progress (current (interact fuel e pg σ).2) =
  progress (current (execute e pg σ).2).
Proof.
  rewrite interact_unfold.
  destruct (execute e pg σ).1, fuel; try done. by rewrite interact_progress.
Qed.

Lemma interact_completed fuel e pg σ :
  quiz_completed (current σ) = true →
  quiz_completed (current (interact fuel e pg σ).2) = true.
Proof.
  revert e σ. induction fuel as [|fuel IH]; intros e σ Hdone;
    rewrite interact_unfold;
    pose proof (evolves_completed _ _ _ _ (execute_evolves e pg σ) Hdone) as Hc.
  - by destruct (execute e pg σ).1.
  - destruct (execute e pg σ).1; try done. by apply IH.
Qed.

(** A counted submission, settled: the flag is set exactly when the new
    index reaches the number of questions. *)
Lemma interact_submission fuel e σ qs q c :
  1 ≤ fuel → has_key e (current σ) = true →
  in_progress (current σ) qs q → Forall four_options qs →
  submits e (Some c) → c ∈ choices →
  quiz_part (current (interact fuel e QuizPage σ).2) =
    (Some qs, current_question_idx (current σ) + 1,
     score (current σ) + gain q c,
     attempted_questions (current σ) ∪ {[current_question_idx (current σ)]},
     bool_decide (length qs ≤ current_question_idx (current σ) + 1), length qs).
Proof.
  intros Hfuel Hkey Hin Hall Hsub Hc.
  assert (Hfour : four_options q).
  { rewrite Forall_forall in Hall. apply Hall.
    eapply list_elem_of_lookup_2, Hin. }
  assert (qs ≠ []) as Hne by (destruct Hin as (_ & _ & Hq); by destruct qs).
  destruct (execute_advances e σ qs q c) as (σ1 & H1 & Hp1); try done.
  assert (has_key (released e) (current σ1) = true) as Hkey1.
  { rewrite <-Hkey. apply has_key_ext; [done|].
    apply (foreign_key QuizPage); [done|].
    replace σ1 with (execute e QuizPage σ).2 by (by rewrite H1).
    apply execute_foreign. }
  destruct fuel as [|fuel]; [lia|]. rewrite interact_unfold, H1. simpl.
  set (i := current_question_idx (current σ)) in *.
  apply quiz_part_is in Hp1 as Hf.
  destruct Hf as (Hq1 & Hi1 & Hsc1 & Ha1 & Hc1 & Ht1).
  destruct (decide (i + 1 < length qs)) as [Hlt|Hge].
  - destruct (lookup_lt_is_Some_2 _ _ Hlt) as [q' Hq'].
    destruct (execute_idle (released e) σ1 qs q') as (σ2 & H2 & Hp2).
    + done.
    + unfold in_progress. by rewrite Hq1, Hc1, Hi1.
    + rewrite Forall_forall in Hall. apply Hall. by eapply list_elem_of_lookup_2.
    + done.
    + rewrite (interact_finished _ _ _ _ _ H2). simpl. rewrite Hp2.
      rewrite Hi1, Hsc1, Ha1. by rewrite bool_decide_eq_false_2 by lia.
  - destruct (execute_completes (released e) σ1 qs) as (σ2 & H2 & Hp2); try done.
    { rewrite Hi1. lia. }
    assert (quiz_part (current σ2) =
              (Some qs, i + 1, score (current σ) + gain q c,
               attempted_questions (current σ) ∪ {[i]},
               bool_decide (length qs ≤ i + 1), length qs)) as Hgoal.
    { rewrite Hp2, Hi1, Hsc1, Ha1. by rewrite bool_decide_eq_true_2 by lia. }
    rewrite interact_unfold, H2. simpl.
    destruct fuel as [|fuel]; [done|].
    apply quiz_part_is in Hp2 as Hf.
    destruct Hf as (Hq2 & Hi2 & Hsc2 & Ha2 & Hc2 & Ht2).
    destruct (execute_summary (released (released e)) σ2 qs) as (σ3 & H3 & Hp3);
      try done.
    { rewrite <-Hkey1. apply has_key_ext; [done|].
      apply (foreign_key QuizPage); [done|].
      replace σ2 with (execute (released e) QuizPage σ1).2 by (by rewrite H2).
      apply execute_foreign. }
    rewrite (interact_finished _ _ _ _ _ H3). simpl.
    rewrite Hp3, Hi2, Hsc2, Ha2, Hi1, Hsc1, Ha1.
    by rewrite bool_decide_eq_true_2 by lia.
Qed.

Lemma play_submissions fuel qs es σ :
  1 ≤ fuel → Forall four_options qs → Forall submission es →
  Forall (λ e, has_key e (current σ) = true) es →
  quiz_questions (current σ) = Some qs →
  quiz_completed (current σ) = false →
  current_question_idx (current σ) + length es ≤ length qs →
  let σ' := play fuel es σ in
  quiz_questions (current σ') = Some qs ∧
  current_question_idx (current σ') = current_question_idx (current σ) + length es ∧
  (es ≠ [] →
   quiz_completed (current σ') =
     bool_decide (length qs ≤ current_question_idx (current σ) + length es)).
Proof.
  intros Hfuel Hall Hes. revert σ.
  induction Hes as [|e es (c & Hsub & Hc) Hes IH]; intros σ Hkeys Hqs Hdone Hlen;
    simpl in *.
  { split_and?; [done | lia | done]. }
  apply Forall_cons in Hkeys as [Hkey Hkeys].
  destruct (lookup_lt_is_Some_2 qs (current_question_idx (current σ))) as [q Hq];
    [lia|].
  pose proof (interact_submission fuel e σ qs q c Hfuel Hkey) as Hstep.
  apply quiz_part_is in Hstep as (Hq1 & Hi1 & _ & _ & Hc1 & _); try done.
  simpl in *.
  destruct es as [|e' es].
  { simpl. split_and?; [done | lia |]. intros _. rewrite Hc1.
    apply bool_decide_ext. lia. }
  rewrite bool_decide_eq_false_2 in Hc1 by (simpl in Hlen; lia).
  destruct (IH (interact fuel e QuizPage σ).2) as (IH1 & IH2 & IH3); try done.
  { eapply Forall_impl; [exact Hkeys|]. intros e0 <-.
    apply has_key_ext; [done|]. apply (foreign_key QuizPage); [done|].
    apply interact_foreign. }
  { rewrite Hi1. simpl in *. lia. }
  split_and?; [done | rewrite IH2, Hi1; simpl; lia |].
  intros _. rewrite IH3 by done. rewrite Hi1. apply bool_decide_ext. simpl. lia.
Qed.

(** ** What a computation adds to the actions *)

Section emits.
Context (P : effect → Prop).

Lemma emits_silent {A} (m : script A) :
  (∀ w, out (m w).2 = out w) → emits P m.
Proof. intros H w. exists []. by rewrite app_nil_r, H. Qed.

Lemma emits_ret {A} (a : A) : emits P (mret a).
Proof. by apply emits_silent. Qed.

Lemma emits_raise {A} ex : emits P (raise (A:=A) ex).
Proof. by apply emits_silent. Qed.

Lemma emits_rerun {A} : emits P (rerun (A:=A)).
Proof. by apply emits_silent. Qed.

Lemma emits_state : emits P state.
Proof. by apply emits_silent. Qed.

Lemma emits_modify f : emits P (modify f).
Proof. by apply emits_silent. Qed.

Lemma emits_cached : emits P cached.
Proof. by apply emits_silent. Qed.

Lemma emits_memoize qs : emits P (memoize qs).
Proof. by apply emits_silent. Qed.

Lemma emits_ChatGroq e key : emits P (ChatGroq e key).
Proof.
  apply emits_silent. intros w. rewrite ChatGroq_run. by destruct (_ || _).
Qed.

Lemma emits_index {A} (l : list A) i : emits P (index l i).
Proof. apply emits_silent. intros w. unfold index. by destruct (l !! i). Qed.

Lemma emits_emit x : P x → emits P (emit x).
Proof. intros Hx w. exists [x]. split; [done | by constructor]. Qed.

Lemma emits_bind {A B} (m : script A) (k : A → script B) :
  emits P m → (∀ a, emits P (k a)) → emits P (m ≫= k).
Proof.
  intros Hm Hk w. unfold mbind, script_bind, bind.
  destruct (Hm w) as (o1 & Ho1 & HP1).
  destruct (m w) as [[a| |ex] w1]; simpl in *; eauto.
  destruct (Hk a w1) as (o2 & Ho2 & HP2).
  exists (o1 ++ o2). rewrite Ho2, Ho1, app_assoc. split; [done|].
  by apply Forall_app.
Qed.

Lemma emits_for_each {A} (xs : list A) (body : A → script unit) :
  (∀ x, emits P (body x)) → emits P (for_each xs body).
Proof.
  intros Hbody. induction xs as [|x xs IH]; simpl.
  - apply emits_ret.
  - apply emits_bind; [apply Hbody | by intros _].
Qed.
End emits.

Ltac emitting :=
  repeat first
    [ progress intros
    | apply emits_bind
    | apply emits_for_each
    | apply emits_emit; first [ exact I | discriminate ]
    | apply emits_ret | apply emits_raise | apply emits_rerun
    | apply emits_state | apply emits_modify | apply emits_cached
    | apply emits_memoize | apply emits_index | apply emits_ChatGroq
    | match goal with
      | |- emits _ (if ?b then _ else _) => destruct b
      | |- emits _ (match ?x with _ => _ end) => destruct x
      end ].

Lemma emits_bootstrap e : emits bootstrap_action (App.bootstrap e).
Proof. unfold App.bootstrap, App.start_ollama. emitting. Qed.

Lemma emits_quiz e : emits (λ _, True) (Quiz.quiz e).
Proof.
  unfold Quiz.quiz, Quiz.answer_of, Quiz.lookup, Quiz.add_attempted, button.
  emitting.
Qed.

Lemma emits_quiz_page e : emits not_prompt (Quiz.page e).
Proof.
  unfold Quiz.page, Quiz.body, Quiz.quiz, Quiz.answer_of, Quiz.lookup,
    Quiz.add_attempted, button, call, not_prompt.
  emitting.
Qed.

Lemma emits_generate_qna e : emits not_prompt (QnA.generate_qna e).
Proof.
  unfold QnA.generate_qna, QnA.ask, QnA.cache_questions, QnA.append_message,
    call, write_stream, not_prompt.
  emitting.
Qed.

(** * The liveness check and the bootstrap *)

(** C7.  The liveness check returns true exactly when the GET on the local
    address with the timeout of 2 seconds gives a response of status 200;
    on a request exception it returns false. *)
Theorem liveness_check e :
  (App.is_ollama_running e = true ↔
   requests_get e "http://localhost:11434" 2 = Response 200) ∧
  (∀ ex, requests_get e "http://localhost:11434" 2 = RequestException ex →
         App.is_ollama_running e = false).
Proof.
  unfold App.is_ollama_running, App.ollama_url.
  destruct (requests_get e "http://localhost:11434" 2) as [code|ex]; split.
  - rewrite bool_decide_eq_true. split; [by intros -> | by intros [= ->]].
  - done.
  - done.
  - done.
Qed.

(** C8.  Starting the service never raises, and neither does the bootstrap
    around it.  When the launch fails, the
    result is the string 'Failed to start Ollama:' followed by the text of
    the exception, after a single launch attempt and with the store
    untouched (so the status is what it was), and the selected page is then
    run as usual.  When the launch succeeds, the script sleeps 3 seconds
    and returns None, the status of the store is then 'Online' and the
    other keys of the store are what they were. *)
Theorem start_ollama_outcome e w :
  (∀ ex, popen e ["ollama"; "serve"] = Some ex →
     App.start_ollama e w =
       (Ret (Some ("Failed to start Ollama:" +:+ Py.str_of ex)),
        {| ss := ss w; out := out w ++ [Popen ["ollama"; "serve"]];
           cache := cache w |}) ∧
     status (ss (App.start_ollama e w).2) = status (ss w)) ∧
  (popen e ["ollama"; "serve"] = None →
     App.start_ollama e w =
       (Ret None,
        {| ss := set_status "Online" (ss w);
           out := (out w ++ [Popen ["ollama"; "serve"]]) ++ [Sleep 3];
           cache := cache w |}) ∧
     (App.start_ollama e w).1 = Ret None ∧
     status (ss (App.start_ollama e w).2) = "Online" ∧
     out (App.start_ollama e w).2 =
       out w ++ [Popen ["ollama"; "serve"]; Sleep 3] ∧
     user_input (ss (App.start_ollama e w).2) = user_input (ss w) ∧
     groq_api_key (ss (App.start_ollama e w).2) = groq_api_key (ss w) ∧
     messages (ss (App.start_ollama e w).2) = messages (ss w) ∧
     notes (ss (App.start_ollama e w).2) = notes (ss w) ∧
     first_time (ss (App.start_ollama e w).2) = first_time (ss w) ∧
     quiz_part (ss (App.start_ollama e w).2) = quiz_part (ss w)) ∧
  (∀ ex, (App.start_ollama e w).1 ≠ Raise ex) ∧
  (App.start_ollama e w).1 ≠ Rerun ∧
  (App.bootstrap e w).1 = Ret () ∧
  (∀ ex pg, App.is_ollama_running e = false →
     popen e ["ollama"; "serve"] = Some ex →
     app e pg w =
       run e pg
         {| ss := ss w;
            out := (out w ++ [Popen ["ollama"; "serve"]]) ++
                   (if bool_decide (status (ss w) = "Online")
                    then [SidebarSuccess "ollama is running"] else []);
            cache := cache w |}).
Proof.
  pose proof (bootstrap_returns e w) as Hboot.
  destruct w as [s o ca]. unfold app, App.bootstrap, App.start_ollama. unmonad.
  simpl. split_and?.
  - by intros ex ->.
  - intros ->. simpl. by rewrite <-app_assoc.
  - intros ex. by destruct (popen e _).
  - by destruct (popen e _).
  - exact Hboot.
  - intros ex pg -> ->. simpl. case_bool_decide; simpl; [done|].
    by rewrite app_nil_r.
Qed.

(** * The topic guards *)

Lemma bootstrap_status e w :
  ∃ st, ss (App.bootstrap e w).2 = set_status st (ss w) ∧
        cache (App.bootstrap e w).2 = cache w.
Proof.
  destruct w as [s o ca]. unfold App.bootstrap, App.start_ollama. unmonad. simpl.
  destruct (negb _); [|exists (status s); by destruct s].
  destruct (popen e _); simpl.
  - exists (status s). case_bool_decide; by destruct s.
  - by exists "Online".
Qed.

(** The world in which the page of an execution starts. *)
Lemma render_world e pg σ :
  ∃ st o,
    render e pg σ =
      run e pg {| ss := set_status st (current σ); out := o;
                  cache := questions_cache σ |} ∧
    Forall bootstrap_action o.
Proof.
  unfold render. rewrite app_run.
  destruct (bootstrap_status e (world_of σ)) as (st & Hss & Hca).
  destruct (emits_bootstrap e (world_of σ)) as (o & Hout & Ho).
  exists st, o. split; [|done].
  destruct (App.bootstrap e (world_of σ)).2 as [s1 o1 c1]. simpl in *.
  by subst.
Qed.

Lemma not_bootstrap_action o x :
  Forall bootstrap_action o → ¬ bootstrap_action x → x ∉ o.
Proof. intros Ho Hx Hin. rewrite Forall_forall in Ho. by apply Hx, Ho. Qed.

Lemma not_prompt_elem o : Forall not_prompt o → Write enter_topics_prompt ∉ o.
Proof. intros Ho Hin. rewrite Forall_forall in Ho. by apply (Ho _ Hin). Qed.

Lemma bind_apply {A B} (m : script A) (k : A → script B) w :
  (m ≫= k) w =
    match m w with
    | (Ret a, w') => k a w'
    | (Rerun, w') => (Rerun, w')
    | (Raise ex, w') => (Raise ex, w')
    end.
Proof. reflexivity. Qed.

Lemma cache_questions_miss e w :
  cache w = None →
  out (QnA.cache_questions e w).2 =
    out w ++ [Invoke QuestionsChain (user_input (ss w))].
Proof.
  intros Hca. destruct w as [s o ca]. simpl in *. subst ca.
  unfold QnA.cache_questions. unmonad. simpl.
  by destruct (QnA.questions_chain e (user_input s)).
Qed.

Lemma generate_qna_invokes e w :
  cache w = None →
  ∃ o, out (QnA.generate_qna e w).2 =
         (out w ++ [Invoke QuestionsChain (user_input (ss w))]) ++ o ∧
       Forall not_prompt o.
Proof.
  intros Hca. unfold QnA.generate_qna. rewrite bind_apply.
  rewrite <-(cache_questions_miss e w Hca).
  destruct (QnA.cache_questions e w) as [[qs| |ex] w1]; simpl.
  - apply emits_for_each. intros ques.
    unfold QnA.ask, QnA.append_message, call, write_stream, not_prompt. emitting.
  - exists []. by rewrite app_nil_r.
  - exists []. by rewrite app_nil_r.
Qed.

#[local] Arguments QnA.generate_qna : simpl never.

Ltac member :=
  rewrite ?elem_of_app, ?elem_of_cons, ?elem_of_nil;
  intuition (auto; try discriminate; try congruence).

(** The pages of a new session, by the variable GROQ_API_KEY. *)
Lemma has_key_new e st :
  has_key e (set_status st (current new_session)) =
  bool_decide (is_Some (getenv e "GROQ_API_KEY")).
Proof. reflexivity. Qed.

Lemma new_notes_page e w :
  user_input (ss w) = None → notes (ss w) = None →
  Button "Generate Notes" ∈ out (Notes.body e w).2 ∧
  (Forall bootstrap_action (out w) →
   Write enter_topics_prompt ∉ out (Notes.body e w).2) ∧
  (pressed e = Some "Generate Notes" →
   Invoke NotesChain None ∈ out (Notes.body e w).2).
Proof.
  intros Hu Hn. destruct w as [s o ca]. simpl in Hu, Hn.
  assert (Forall bootstrap_action o → Write enter_topics_prompt ∉ o) as Hw
    by (intros Ho; apply not_bootstrap_action; [done | by intros []]).
  unfold Notes.body. unmonad. simpl. rewrite Hu, Hn. simpl.
  case_bool_decide as Hpress; simpl.
  - destruct (notes_chain e None); simpl; member.
  - member.
Qed.

Lemma new_qna_page e w :
  user_input (ss w) = None → messages (ss w) = [] → cache w = None →
  Button "Generate Question Answers" ∈ out (QnA.body e w).2 ∧
  (Forall bootstrap_action (out w) →
   Write enter_topics_prompt ∉ out (QnA.body e w).2) ∧
  (pressed e = Some "Generate Question Answers" →
   Invoke QuestionsChain None ∈ out (QnA.body e w).2).
Proof.
  intros Hu Hm Hca. destruct w as [s o ca]. simpl in Hu, Hm, Hca. subst ca.
  assert (Forall bootstrap_action o → Write enter_topics_prompt ∉ o) as Hw
    by (intros Ho; apply not_bootstrap_action; [done | by intros []]).
  unfold QnA.body. unmonad. simpl. rewrite Hu, Hm. simpl.
  case_bool_decide as Hpress; simpl.
  - match goal with
    | |- context [QnA.generate_qna e ?w] =>
        destruct (generate_qna_invokes e w) as (o' & -> & Ho'); [done|]
    end.
    apply not_prompt_elem in Ho'. simpl.
    member.
  - member.
Qed.

(** C10, as amended.  A new session has the topic None, not the empty
    string, and no API key.  Neither the Notes page nor the Q&A page draws
    the prompt asking for topics.  Where the process has the variable
    GROQ_API_KEY, both pages take the generation branch: the generate button
    is drawn and pressing it invokes the chain with the topic None.  Where
    it has not, the construction of the chat model fails on both pages and
    the execution stops before the guard, with nothing of the page drawn. *)
Theorem initial_topic_passes_guards e :
  user_input (current new_session) = None ∧
  groq_api_key (current new_session) = None ∧
  (Write enter_topics_prompt ∉ out (render e NotesPage new_session).2) ∧
  (Write enter_topics_prompt ∉ out (render e QnaPage new_session).2) ∧
  (is_Some (getenv e "GROQ_API_KEY") →
   Button "Generate Notes" ∈ out (render e NotesPage new_session).2 ∧
   (pressed e = Some "Generate Notes" →
    Invoke NotesChain None ∈ out (render e NotesPage new_session).2) ∧
   Button "Generate Question Answers" ∈ out (render e QnaPage new_session).2 ∧
   (pressed e = Some "Generate Question Answers" →
    Invoke QuestionsChain None ∈ out (render e QnaPage new_session).2)) ∧
  (getenv e "GROQ_API_KEY" = None →
   (render e NotesPage new_session).1 = Raise Py.GroqError ∧
   Forall bootstrap_action (out (render e NotesPage new_session).2) ∧
   (render e QnaPage new_session).1 = Raise Py.GroqError ∧
   Forall bootstrap_action (out (render e QnaPage new_session).2)).
Proof.
  destruct (render_world e NotesPage new_session) as (st & o & -> & Ho).
  destruct (render_world e QnaPage new_session) as (st' & o' & -> & Ho').
  assert (Write enter_topics_prompt ∉ o) as Hw
    by (apply not_bootstrap_action; [done | by intros []]).
  assert (Write enter_topics_prompt ∉ o') as Hw'
    by (apply not_bootstrap_action; [done | by intros []]).
  cbn [run]. rewrite notes_page_run, qna_page_run. cbn [ss].
  rewrite !has_key_new.
  split; [done|]. split; [done|].
  destruct (getenv e "GROQ_API_KEY") as [k|] eqn:Hk.
  - rewrite bool_decide_eq_true_2 by eauto.
    match goal with
    | |- context [Notes.body e ?w] =>
        destruct (new_notes_page e w) as (Hn1 & Hn2 & Hn3); [done | done |]
    end.
    match goal with
    | |- context [QnA.body e ?w] =>
        destruct (new_qna_page e w) as (Hq1 & Hq2 & Hq3); [done | done | done |]
    end.
    split_and?; [by apply Hn2 | by apply Hq2 | | done].
    intros _. split_and?; done.
  - rewrite bool_decide_eq_false_2 by (by intros [? ?]). simpl.
    split_and?; [done | done | by intros [? ?] | done].
Qed.

#[local] Arguments Quiz.quiz : simpl never.

(** C6.  With the empty string as topic, the Notes page and the Q&A page
    invoke no chain and, when their chat model can be built, draw the prompt
    asking for topics; the Quiz page has no such guard: pressing 'Generate
    Quiz' invokes the quiz chain with the empty topic, and the prompt is
    never drawn. *)
Theorem quiz_page_skips_topic_guard e σ :
  user_input (current σ) = Some "" →
  ((has_key e (current σ) = true →
    Write enter_topics_prompt ∈ out (render e NotesPage σ).2) ∧
   (∀ c arg, Invoke c arg ∉ out (render e NotesPage σ).2)) ∧
  ((has_key e (current σ) = true →
    Write enter_topics_prompt ∈ out (render e QnaPage σ).2) ∧
   (∀ c arg, Invoke c arg ∉ out (render e QnaPage σ).2)) ∧
  (has_key e (current σ) = true →
   quiz_questions (current σ) = None → pressed e = Some "Generate Quiz" →
   Invoke QuizChain (Some "") ∈ out (render e QuizPage σ).2) ∧
  (Write enter_topics_prompt ∉ out (render e QuizPage σ).2).
Proof.
  intros Htopic.
  assert (∀ st, has_key e (set_status st (current σ)) = has_key e (current σ))
    as Hst by done.
  split_and?.
  - intros Hkey. destruct (render_world e NotesPage σ) as (st & o & -> & Ho).
    cbn [run]. rewrite notes_page_run. cbn [ss]. rewrite Hst, Hkey.
    unfold Notes.body. unmonad. simpl. rewrite Htopic. simpl. member.
  - intros c arg.
    destruct (render_world e NotesPage σ) as (st & o & -> & Ho).
    assert (Invoke c arg ∉ o) by (apply not_bootstrap_action; [done | by intros []]).
    cbn [run]. rewrite notes_page_run. cbn [ss]. rewrite Hst.
    destruct (has_key e (current σ)); [|done].
    unfold Notes.body. unmonad. simpl. rewrite Htopic. simpl. member.
  - intros Hkey. destruct (render_world e QnaPage σ) as (st & o & -> & Ho).
    cbn [run]. rewrite qna_page_run. cbn [ss]. rewrite Hst, Hkey.
    unfold QnA.body. unmonad. simpl. rewrite Htopic. simpl. member.
  - intros c arg.
    destruct (render_world e QnaPage σ) as (st & o & -> & Ho).
    assert (Invoke c arg ∉ o) by (apply not_bootstrap_action; [done | by intros []]).
    cbn [run]. rewrite qna_page_run. cbn [ss]. rewrite Hst.
    destruct (has_key e (current σ)); [|done].
    unfold QnA.body. unmonad. simpl. rewrite Htopic. simpl. member.
  - intros Hkey Hqs Hpress.
    destruct (render_world e QuizPage σ) as (st & o & -> & Ho).
    cbn [run]. rewrite quiz_page_run. cbn [ss]. rewrite Hst, Hkey.
    unfold Quiz.body. unmonad. simpl. rewrite Hqs, Hpress, Htopic. simpl.
    destruct (Quiz.quiz_chain e (Some "")) as [ex|qs]; simpl; [member|].
    match goal with
    | |- context [Quiz.quiz e ?w] =>
        destruct (emits_quiz e w) as (o' & Hout & _);
        destruct (Quiz.quiz e w) as [[[]| |ex] w']
    end; simpl in *; rewrite Hout; member.
  - destruct (render_world e QuizPage σ) as (st & o & -> & Ho).
    assert (Write enter_topics_prompt ∉ o) as Hw
      by (apply not_bootstrap_action; [done | by intros []]).
    cbn [run].
    match goal with
    | |- context [Quiz.page e ?w] =>
        destruct (emits_quiz_page e w) as (o' & -> & Ho')
    end.
    apply not_prompt_elem in Ho'. simpl. member.
Qed.

(** * The question/answer log *)

Lemma ask_log e ques w chunks :
  answer_chain e ques = inr chunks →
  ∃ w', QnA.ask e ques w = (Ret (), w') ∧
        messages (ss w') = messages (ss w) ++ logged e ques.
Proof.
  intros Hans. destruct w as [s o ca]. eexists.
  unfold QnA.ask, QnA.append_message, logged, answer_text. unmonad. simpl.
  rewrite Hans. simpl. split; [done|]. simpl. by rewrite <-app_assoc.
Qed.

Lemma for_each_ask_log e qs w :
  (∀ ques, ques ∈ qs → ∃ chunks, answer_chain e ques = inr chunks) →
  ∃ w', for_each qs (QnA.ask e) w = (Ret (), w') ∧
        messages (ss w') = messages (ss w) ++ flat_map (logged e) qs.
Proof.
  revert w. induction qs as [|ques qs IH]; intros w Hans; simpl.
  - exists w. by rewrite app_nil_r.
  - destruct (Hans ques) as [chunks Hc]; [by left|].
    destruct (ask_log e ques w chunks Hc) as (w1 & H1 & Hm1).
    destruct (IH w1) as (w2 & H2 & Hm2).
    { intros q Hq. apply Hans. by right. }
    exists w2. rewrite bind_apply, H1. split; [done|].
    rewrite Hm2, Hm1. by rewrite <-app_assoc.
Qed.

Lemma cache_questions_result e w all :
  cache w = Some all ∨
  cache w = None ∧ QnA.questions_chain e (user_input (ss w)) = inr all →
  ∃ w', QnA.cache_questions e w = (Ret all, w') ∧ ss w' = ss w.
Proof.
  destruct w as [s o ca]. simpl. unfold QnA.cache_questions. unmonad. simpl.
  intros [-> | [-> Hq]]; simpl; [by eexists|].
  rewrite Hq. simpl. by eexists.
Qed.

(** C4.  When the question list (cached, or returned by the questions
    chain) has N entries and every answer is generated, generate_qna drops
    the first entry and appends to the message log, for each remaining
    question in order, the question immediately followed by its answer:
    N - 1 pairs, none for an empty list. *)
Theorem generate_qna_log e w all :
  cache w = Some all ∨
  cache w = None ∧ QnA.questions_chain e (user_input (ss w)) = inr all →
  (∀ ques, ques ∈ drop 1 all → ∃ chunks, answer_chain e ques = inr chunks) →
  (QnA.generate_qna e w).1 = Ret () ∧
  messages (ss (QnA.generate_qna e w).2) =
    messages (ss w) ++ flat_map (logged e) (drop 1 all) ∧
  length (flat_map (logged e) (drop 1 all)) = 2 * (length all - 1).
Proof.
  intros Hall Hans.
  destruct (cache_questions_result e w all Hall) as (w1 & H1 & Hss).
  destruct (for_each_ask_log e (drop 1 all) w1 Hans) as (w2 & H2 & Hm).
  unfold QnA.generate_qna. rewrite bind_apply, H1. unfold Py.slice_from_1.
  rewrite H2. simpl. rewrite Hm, Hss. split_and?; try done.
  clear. generalize (drop 1 all) (length_drop all 1).
  intros l <-. induction l as [|x l IH]; simpl; lia.
Qed.

(** * The quiz state machine *)

Lemma gain_spec q c :
  four_options q → c ∈ choices →
  ∃ label v, Py.keys (options q) !! position c = Some label ∧
             Py.get (options q) label = Some v ∧
             gain q c = if v then 1 else 0.
Proof.
  intros (k0 & k1 & k2 & k3 & H0 & H1 & H2 & H3)%four_options_keys Hc.
  assert (is_Some (Py.keys (options q) !! position c)) as [label Hl].
  { apply choices_spec in Hc as [-> | [-> | [-> | ->]]]; eauto. }
  destruct (get_keys _ _ _ Hl) as [v Hv].
  exists label, v. unfold gain. rewrite Hl, Hv. by destruct v.
Qed.

Lemma progress_is s sc a i :
  progress s = (sc, a, i) ↔
  score s = sc ∧ attempted_questions s = a ∧ current_question_idx s = i.
Proof.
  unfold progress. split.
  - intros [= -> -> ->]. done.
  - intros (-> & -> & ->). done.
Qed.

(** C1.  In a quiz in progress, on a quiz page whose chat model can be
    built, a 'Next Question' submission with the radio
    on A, B, C or D adds 1 to the score exactly when the option mapping of
    the current question maps the label displayed next to the chosen value
    to true, adds the current index to the attempted set and advances the
    index by one; the re-executions that follow keep these values.  Any
    interaction that changes the score, the attempted set or the index is
    such a submission on the quiz page. *)
Theorem next_question_submission σ :
  (∀ fuel e qs q c,
     has_key e (current σ) = true →
     in_progress (current σ) qs q → four_options q →
     submits e (Some c) → c ∈ choices →
     ∃ label v,
       Py.keys (options q) !! position c = Some label ∧
       Py.get (options q) label = Some v ∧
       let s' := current (interact fuel e QuizPage σ).2 in
       score s' = (if v then score (current σ) + 1 else score (current σ)) ∧
       attempted_questions s' =
         attempted_questions (current σ) ∪ {[current_question_idx (current σ)]} ∧
       current_question_idx s' = current_question_idx (current σ) + 1) ∧
  (∀ fuel e pg,
     progress (current (interact fuel e pg σ).2) ≠ progress (current σ) →
     pg = QuizPage ∧
     ∃ qs q c, in_progress (current σ) qs q ∧ four_options q ∧
               submits e (Some c) ∧ c ∈ choices).
Proof.
  split.
  - intros fuel e qs q c Hkey Hin Hfour Hsub Hc.
    destruct (gain_spec q c Hfour Hc) as (label & v & Hl & Hv & Hg).
    exists label, v. split; [done|]. split; [done|]. cbv zeta.
    apply progress_is. rewrite interact_progress_execute.
    destruct (execute_advances e σ qs q c) as (σ' & -> & Hp); try done.
    apply quiz_part_is in Hp as (_ & Hi & Hsc & Ha & _).
    unfold progress. cbn [snd]. rewrite Hi, Hsc, Ha, Hg.
    destruct v; by rewrite ?Nat.add_0_r.
  - intros fuel e pg Hchanged. rewrite interact_progress_execute in Hchanged.
    destruct (execute_evolves e pg σ) as [Hsame | (-> & qs & _ & _ & _ & Hcase)].
    + apply quiz_part_eq in Hsame as (_ & Hi & Hsc & Ha & _).
      destruct Hchanged. unfold progress. by rewrite Hi, Hsc, Ha.
    + destruct Hcase as [[Hp _] | (qs' & q & c & ? & ? & ? & ? & _)]; [done|].
      split; [done|]. by exists qs', q, c.
Qed.

(** C2.  In every session that executions produce from a new one (index 0,
    no attempted question, score 0), the score is at most the number of
    attempted questions, which is at most the total number of questions;
    and no execution decreases the current index. *)
Theorem quiz_score_invariant σ :
  reachable σ →
  score (current σ) ≤ size (attempted_questions (current σ)) ∧
  size (attempted_questions (current σ)) ≤ total_questions (current σ) ∧
  ∀ e pg,
    current_question_idx (current σ) ≤
    current_question_idx (current (execute e pg σ).2).
Proof.
  intros Hreach. destruct (reachable_consistent σ Hreach) as (Hscore & Hatt & Hquiz).
  split; [done|]. split.
  - apply size_below in Hatt. destruct (quiz_questions (current σ)); lia.
  - intros e pg. eapply evolves_index, execute_evolves.
Qed.

(** C3.  On a quiz of N ≥ 1 questions, taken from its first question with
    submissions whose radio value is A, B, C or D, on a quiz page whose chat
    model can be built, the completion flag is
    true after the N-th submission and false after fewer.  An execution
    sets the flag only with the current index at or beyond the number of
    questions, and no execution of any page clears it. *)
Theorem quiz_completion fuel qs σ es :
  1 ≤ fuel → qs ≠ [] → Forall four_options qs →
  quiz_questions (current σ) = Some qs →
  current_question_idx (current σ) = 0 →
  quiz_completed (current σ) = false →
  Forall submission es → Forall (λ e, has_key e (current σ) = true) es →
  length es ≤ length qs →
  (quiz_completed (current (play fuel es σ)) = true ↔ length es = length qs) ∧
  (∀ e pg σ',
     quiz_completed (current σ') = false →
     quiz_completed (current (execute e pg σ').2) = true →
     ∃ qs', quiz_questions (current (execute e pg σ').2) = Some qs' ∧
            length qs' ≤ current_question_idx (current (execute e pg σ').2)) ∧
  (∀ e pg σ',
     quiz_completed (current σ') = true →
     quiz_completed (current (execute e pg σ').2) = true).
Proof.
  intros Hfuel Hne Hall Hqs Hidx Hdone Hes Hkeys Hlen. split_and?.
  - destruct es as [|e es].
    { simpl. rewrite Hdone. split; [done|]. intros Hl. by destruct qs. }
    destruct (play_submissions fuel qs (e :: es) σ) as (_ & _ & Hc); try done.
    { rewrite Hidx. simpl in *. lia. }
    rewrite Hc by done. rewrite Hidx, bool_decide_eq_true. simpl in *. lia.
  - intros e pg σ' Hoff Hon.
    destruct (execute_evolves e pg σ') as [Hsame | (_ & qs' & _ & _ & _ & Hcase)].
    + apply quiz_part_eq in Hsame as (_ & _ & _ & _ & Hc & _). congruence.
    + destruct Hcase as [[_ [Hc | [_ Hset]]] | (? & ? & ? & _ & _ & _ & _ & _ & Hc)];
        [congruence | done | congruence].
  - intros e pg σ' Hon. eapply evolves_completed; [apply execute_evolves | done].
Qed.

(** C5, as amended.  The radio widget has no empty state: a 'Next
    Question' submission made without touching it is a submission of the
    preselected first value A.  In a quiz in progress it is counted like
    any other: the current index is marked attempted and advances by one,
    and the score grows by one exactly when the option mapping of the
    current question maps its first label to true, and is unchanged
    otherwise. *)
Theorem submission_without_selection fuel e σ qs q :
  has_key e (current σ) = true →
  in_progress (current σ) qs q → four_options q →
  pressed e = Some "Next Question" → selected e = None →
  radio e = Some "A" ∧
  ∃ label v,
    Py.keys (options q) !! 0 = Some label ∧
    Py.get (options q) label = Some v ∧
    let s' := current (interact fuel e QuizPage σ).2 in
    score s' = (if v then score (current σ) + 1 else score (current σ)) ∧
    attempted_questions s' =
      attempted_questions (current σ) ∪ {[current_question_idx (current σ)]} ∧
    current_question_idx s' = current_question_idx (current σ) + 1.
Proof.
  intros Hkey Hin Hfour Hpress Hsel.
  assert (radio e = Some "A") as Hradio by (by rewrite radio_value, Hsel).
  split; [done|].
  assert ("A" ∈ choices) as Hc by (apply choices_spec; auto).
  destruct (gain_spec q "A" Hfour Hc) as (label & v & Hl & Hv & Hg).
  exists label, v. split; [done|]. split; [done|]. cbv zeta.
  apply progress_is. rewrite interact_progress_execute.
  destruct (execute_advances e σ qs q "A") as (σ' & -> & Hp); try done.
  apply quiz_part_is in Hp as (_ & Hi & Hsc & Ha & _).
  unfold progress. cbn [snd]. rewrite Hi, Hsc, Ha, Hg.
  destruct v; by rewrite ?Nat.add_0_r.
Qed.

(** C9.  The quiz display is partial.  On an empty question list it fails
    with a division by zero; in a quiz in progress whose current record has
    fewer than four options it fails with an index out of range; on a
    non-empty list whose records all have four options it raises nothing,
    whatever the radio widget holds. *)
Theorem quiz_display_partial e w qs :
  quiz_questions (ss w) = Some qs →
  (qs = [] → (Quiz.quiz e w).1 = Raise Py.ZeroDivisionError) ∧
  (∀ q, quiz_completed (ss w) = false →
        qs !! current_question_idx (ss w) = Some q → ¬ four_options q →
        (Quiz.quiz e w).1 = Raise Py.IndexError) ∧
  (qs ≠ [] → Forall four_options qs →
   ∀ ex, (Quiz.quiz e w).1 ≠ Raise ex).
Proof.
  intros Hqs. split_and?.
  - intros ->. by apply quiz_empty.
  - intros q Hdone Hq Hfew. by apply (quiz_few_options e w qs q).
  - intros Hne Hall ex. apply (quiz_never_raises e w qs); try done.
    intros c Hc. destruct (radio_choice e) as (c' & Hc' & Hin). congruence.
Qed.

(** * The statements at sample inputs *)

Lemma reachable_interact fuel e pg σ :
  reachable σ → reachable (interact fuel e pg σ).2.
Proof.
  revert e σ. induction fuel as [|fuel IH]; intros e σ Hσ;
    rewrite interact_unfold;
    pose proof (reachable_execute e pg σ Hσ) as H1.
  - by destruct (execute e pg σ).1.
  - destruct (execute e pg σ).1; try done. by apply IH.
Qed.

Lemma reachable_play fuel es σ : reachable σ → reachable (play fuel es σ).
Proof.
  revert σ. induction es as [|e es IH]; intros σ Hσ; [done|].
  apply IH. by apply reachable_interact.
Qed.

Lemma reachable_started : reachable Sample.started.
Proof. apply reachable_interact, reachable_interact, reachable_new. Qed.

Lemma next_question_submission_witness :
  in_progress (current Sample.started) Sample.quiz Sample.train ∧
  ∃ label v,
    Py.keys (options Sample.train) !! position "A" = Some label ∧
    Py.get (options Sample.train) label = Some v ∧
    let s' := current (interact 2 (Sample.press "Next Question" (Some OptionA) Sample.quiet)
                         QuizPage Sample.started).2 in
    score s' = (if v then score (current Sample.started) + 1
                else score (current Sample.started)) ∧
    attempted_questions s' =
      attempted_questions (current Sample.started) ∪
        {[current_question_idx (current Sample.started)]} ∧
    current_question_idx s' = current_question_idx (current Sample.started) + 1.
Proof.
  assert (in_progress (current Sample.started) Sample.quiz Sample.train) as Hin.
  { unfold in_progress. split_and?; vm_compute; reflexivity. }
  split; [exact Hin|].
  apply (proj1 (next_question_submission Sample.started) 2
           (Sample.press "Next Question" (Some OptionA) Sample.quiet)
           Sample.quiz Sample.train "A").
  - vm_compute; reflexivity.
  - exact Hin.
  - unfold four_options. simpl. lia.
  - split; vm_compute; reflexivity.
  - apply choices_spec; auto.
Defined.

Lemma quiz_score_invariant_witness :
  reachable Sample.started ∧
  score (current Sample.started) ≤ size (attempted_questions (current Sample.started)) ∧
  size (attempted_questions (current Sample.started)) ≤
    total_questions (current Sample.started).
Proof.
  pose proof reachable_started as Hreach.
  split; [exact Hreach|].
  destruct (quiz_score_invariant Sample.started Hreach) as (H1 & H2 & _).
  exact (conj H1 H2).
Defined.

Lemma quiz_completion_witness :
  quiz_completed
    (current (play 2 [Sample.press "Next Question" (Some OptionA) Sample.quiet;
                      Sample.press "Next Question" (Some OptionD) Sample.quiet]
                Sample.started)) = true ↔
  length [Sample.press "Next Question" (Some OptionA) Sample.quiet;
          Sample.press "Next Question" (Some OptionD) Sample.quiet] =
  length Sample.quiz.
Proof.
  apply (quiz_completion 2 Sample.quiz Sample.started).
  - lia.
  - discriminate.
  - repeat constructor; unfold four_options; simpl; lia.
  - vm_compute; reflexivity.
  - vm_compute; reflexivity.
  - vm_compute; reflexivity.
  - repeat constructor.
    + exists "A". split; [split; vm_compute; reflexivity | apply choices_spec; auto].
    + exists "D". split; [split; vm_compute; reflexivity | apply choices_spec; auto].
  - repeat constructor; vm_compute; reflexivity.
  - simpl. lia.
Defined.

Lemma generate_qna_log_witness :
  messages (ss (QnA.generate_qna Sample.quiet (world_of new_session)).2) =
    [ {| role := "assistant"; content := "Q1" |};
      {| role := "user"; content := "Answer to Q1" |};
      {| role := "assistant"; content := "Q2" |};
      {| role := "user"; content := "Answer to Q2" |} ].
Proof.
  destruct (generate_qna_log Sample.quiet (world_of new_session)
              ["preamble"; "Q1"; "Q2"]) as (_ & Hlog & _).
  - right. split; reflexivity.
  - intros ques _. exists ["Answer to "; ques]. reflexivity.
  - rewrite Hlog. reflexivity.
Defined.

(** C5 as stated fails: in the started sample quiz, a 'Next Question'
    submission made without touching the radio changes the score, because
    the preselected first option is the correct one. *)
Lemma unselected_submission_counterexample :
  let e := Sample.press "Next Question" None Sample.quiet in
  let s := current Sample.started in
  let s' := current (interact 2 e QuizPage Sample.started).2 in
  in_progress s Sample.quiz Sample.train ∧
  pressed e = Some "Next Question" ∧ selected e = None ∧
  ¬ (score s' = score s ∧
     current_question_idx s ∈ attempted_questions s' ∧
     current_question_idx s' = current_question_idx s + 1).
Proof.
  cbv zeta. split_and?.
  - unfold in_progress. split_and?; vm_compute; reflexivity.
  - reflexivity.
  - reflexivity.
  - intros (Hscore & _ & _). vm_compute in Hscore. discriminate.
Qed.

Lemma submission_without_selection_witness :
  let e := Sample.press "Next Question" None Sample.quiet in
  let s' := current (interact 2 e QuizPage Sample.started).2 in
  radio e = Some "A" ∧
  score s' = score (current Sample.started) + 1 ∧
  attempted_questions s' =
    attempted_questions (current Sample.started) ∪
      {[current_question_idx (current Sample.started)]} ∧
  current_question_idx s' = current_question_idx (current Sample.started) + 1.
Proof.
  cbv zeta.
  destruct (submission_without_selection 2
              (Sample.press "Next Question" None Sample.quiet)
              Sample.started Sample.quiz Sample.train)
    as (Hradio & label & v & Hl & Hv & Hscore & Hatt & Hidx).
  - vm_compute; reflexivity.
  - unfold in_progress. split_and?; vm_compute; reflexivity.
  - unfold four_options. simpl. lia.
  - reflexivity.
  - reflexivity.
  - simpl in Hl. injection Hl as <-. simpl in Hv. injection Hv as <-.
    split_and?; done.
Defined.

Lemma quiz_page_skips_topic_guard_witness :
  user_input (current Sample.no_topic) = Some "" ∧
  Invoke QuizChain (Some "") ∈
    out (render (Sample.press "Generate Quiz" (Some OptionA) Sample.quiet)
           QuizPage Sample.no_topic).2.
Proof.
  assert (user_input (current Sample.no_topic) = Some "") as Htopic
    by (vm_compute; reflexivity).
  split; [exact Htopic|].
  apply (quiz_page_skips_topic_guard
           (Sample.press "Generate Quiz" (Some OptionA) Sample.quiet)
           Sample.no_topic Htopic).
  - vm_compute; reflexivity.
  - vm_compute; reflexivity.
  - reflexivity.
Defined.

Lemma liveness_check_witness :
  App.is_ollama_running Sample.quiet = true ∧
  App.is_ollama_running (Sample.offline Sample.quiet) = false.
Proof.
  split.
  - apply (liveness_check Sample.quiet). reflexivity.
  - apply (proj2 (liveness_check (Sample.offline Sample.quiet)) ConnectionError).
    reflexivity.
Defined.

Lemma start_ollama_outcome_witness :
  App.start_ollama (Sample.offline Sample.quiet) (world_of new_session) =
    (Ret (Some "Failed to start Ollama:[Errno 2] No such file or directory: 'ollama'"),
     {| ss := App.session_defaults;
        out := [Popen ["ollama"; "serve"]];
        cache := None |}) ∧
  status (ss (world_of new_session)) = "Offline" ∧
  (App.start_ollama Sample.quiet (world_of new_session)).1 = Ret None ∧
  status (ss (App.start_ollama Sample.quiet (world_of new_session)).2) = "Online" ∧
  out (App.start_ollama Sample.quiet (world_of new_session)).2 =
    [Popen ["ollama"; "serve"]; Sleep 3].
Proof.
  destruct (start_ollama_outcome (Sample.offline Sample.quiet)
              (world_of new_session)) as (Hfail & _).
  destruct (start_ollama_outcome Sample.quiet (world_of new_session))
    as (_ & Hstart & _).
  destruct (Hfail (Py.OSError "[Errno 2] No such file or directory: 'ollama'")
              eq_refl) as (Hfailed & _).
  destruct (Hstart eq_refl) as (_ & Hret & Hstatus & Hout & _).
  split_and?; [exact Hfailed | reflexivity | exact Hret | exact Hstatus | exact Hout].
Defined.

Lemma quiz_display_partial_witness :
  (Quiz.quiz Sample.quiet Sample.empty_quiz).1 = Raise Py.ZeroDivisionError ∧
  (Quiz.quiz Sample.quiet Sample.malformed).1 = Raise Py.IndexError.
Proof.
  split.
  - apply (quiz_display_partial Sample.quiet Sample.empty_quiz []); reflexivity.
  - apply (proj1 (proj2 (quiz_display_partial Sample.quiet Sample.malformed
                           [Sample.short] eq_refl)) Sample.short).
    + reflexivity.
    + reflexivity.
    + unfold four_options. simpl. lia.
Defined.

(** C10 as stated fails: without the variable GROQ_API_KEY, the Notes page
    and the Q&A page of a new session stop at the construction of the chat
    model; no button is drawn and a press invokes no chain. *)
Lemma initial_session_counterexample :
  let notes := render (Sample.press "Generate Notes" None Sample.quiet)
                 NotesPage new_session in
  let qna := render (Sample.press "Generate Question Answers" None Sample.quiet)
               QnaPage new_session in
  user_input (current new_session) = None ∧
  notes.1 = Raise Py.GroqError ∧ out notes.2 = [] ∧
  qna.1 = Raise Py.GroqError ∧ out qna.2 = [] ∧
  ¬ (Button "Generate Notes" ∈ out notes.2 ∧
     Invoke NotesChain None ∈ out notes.2 ∧
     Button "Generate Question Answers" ∈ out qna.2 ∧
     Invoke QuestionsChain None ∈ out qna.2).
Proof.
  cbv zeta. split_and?; try (vm_compute; reflexivity).
  intros (H & _). vm_compute in H. by apply elem_of_nil in H.
Qed.

Lemma initial_topic_passes_guards_witness :
  let e := Sample.press "Generate Notes" None (Sample.exported Sample.quiet) in
  Button "Generate Notes" ∈ out (render e NotesPage new_session).2 ∧
  Invoke NotesChain None ∈ out (render e NotesPage new_session).2 ∧
  (render Sample.quiet QnaPage new_session).1 = Raise Py.GroqError.
Proof.
  cbv zeta.
  destruct (initial_topic_passes_guards
              (Sample.press "Generate Notes" None (Sample.exported Sample.quiet)))
    as (_ & _ & _ & _ & Hset & _).
  destruct (initial_topic_passes_guards Sample.quiet)
    as (_ & _ & _ & _ & _ & Hunset).
  destruct Hset as (Hbutton & Hinvoke & _); [by eexists|].
  destruct (Hunset eq_refl) as (_ & _ & Hqna & _).
  split_and?; [exact Hbutton | by apply Hinvoke | exact Hqna].
Defined.

(** * Further properties of the pages *)

#[local] Instance page_step_preorder : PreOrder page_step.
Proof.
  split.
  - intros s. by unfold page_step.
  - intros s1 s2 s3 (H1 & H2 & H3 & H4) (H1' & H2' & H3' & H4').
    unfold page_step. split_and?; [congruence | by etrans | auto | auto].
Qed.

#[local] Instance page_step_world_preorder : PreOrder page_step_world.
Proof.
  split.
  - intros w. unfold page_step_world. done.
  - intros w1 w2 w3. unfold page_step_world. apply transitivity.
Qed.

#[local] Instance cache_kept_preorder : PreOrder cache_kept.
Proof. split; unfold cache_kept; [by intros w | intros w1 w2 w3; auto]. Qed.

Ltac page_stepping :=
  intros [[] ? ?]; unfold page_step_world, page_step; simpl; split_and?;
  first [ done | by apply prefix_app_r ].

Lemma page_step_main e : steady page_step_world (Main.page e).
Proof.
  unfold Main.page, button, call, write_stream. steadying page_stepping.
Qed.

Lemma page_step_qna e : steady page_step_world (QnA.page e).
Proof.
  unfold QnA.page, QnA.body, QnA.generate_qna, QnA.ask, QnA.cache_questions,
    QnA.append_message, button, call, write_stream.
  steadying page_stepping.
Qed.

Lemma page_step_quiz e : steady page_step_world (Quiz.page e).
Proof.
  unfold Quiz.page, Quiz.body, Quiz.quiz, Quiz.answer_of, Quiz.lookup, Quiz.add_attempted,
    button, call, write_stream.
  steadying page_stepping.
Qed.

Lemma page_step_notes e : steady page_step_world (Notes.page e).
Proof.
  intros w. rewrite notes_page_run. destruct (has_key e (ss w)); [|reflexivity].
  destruct w as [s o ca]. unfold page_step_world, Notes.body. unmonad. simpl.
  destruct (negb _); [|done].
  destruct (notes s) as [text|] eqn:Hnotes; simpl; [done|].
  case_bool_decide; simpl; [|done].
  destruct (notes_chain e (user_input s)); simpl; [done|].
  unfold page_step. simpl. rewrite Hnotes. by split_and?.
Qed.

Lemma page_step_run e pg : steady page_step_world (run e pg).
Proof.
  destruct pg; simpl;
    [ apply page_step_main | apply page_step_notes
    | apply page_step_qna | apply page_step_quiz ].
Qed.

(** The bootstrap changes the store only by a successful launch. *)
Lemma bootstrap_store e w : ss (App.bootstrap e w).2 = booted e (ss w).
Proof.
  destruct w as [s o ca].
  unfold booted, launches, App.bootstrap, App.start_ollama. unmonad. simpl.
  destruct (App.is_ollama_running e); simpl; [done|].
  destruct (popen e _); simpl; [by case_bool_decide | done].
Qed.

Lemma bootstrap_cache e w : cache (App.bootstrap e w).2 = cache w.
Proof. by destruct (bootstrap_status e w) as (_ & _ & ->). Qed.

(** The world in which the page of an execution starts. *)
Lemma render_from e pg σ :
  ∃ o, render e pg σ =
         run e pg {| ss := booted e (current σ); out := o;
                     cache := questions_cache σ |} ∧
       Forall bootstrap_action o.
Proof.
  unfold render. rewrite app_run.
  pose proof (bootstrap_store e (world_of σ)) as Hss.
  pose proof (bootstrap_cache e (world_of σ)) as Hca.
  destruct (emits_bootstrap e (world_of σ)) as (o & Hout & Ho).
  exists o. split; [|done].
  destruct (App.bootstrap e (world_of σ)).2 as [s1 o1 c1]. simpl in *.
  by subst.
Qed.

Lemma execute_page_step e pg σ :
  page_step (booted e (current σ)) (current (execute e pg σ).2).
Proof.
  change (current (execute e pg σ).2) with (ss (app e pg (world_of σ)).2).
  rewrite app_run.
  change (current σ) with (ss (world_of σ)).
  rewrite <-(bootstrap_store e (world_of σ)). apply page_step_run.
Qed.

(** X1.  The status after an execution is 'Online' when the bootstrap
    launched the service, and is what it was otherwise: in particular a
    service found running leaves a new session 'Offline', and no
    execution sets the status back. *)
Theorem status_after_execution e pg σ :
  status (current (execute e pg σ).2) =
    if launches e then "Online" else status (current σ).
Proof.
  destruct (execute_page_step e pg σ) as (Hst & _). rewrite Hst.
  unfold booted. by destruct (launches e).
Qed.

(** X2.  No execution removes or rewrites a logged message: the log before
    is a prefix of the log after. *)
Theorem message_log_grows e pg σ :
  messages (current σ) `prefix_of` messages (current (execute e pg σ).2).
Proof.
  destruct (execute_page_step e pg σ) as (_ & Hlog & _).
  unfold booted in Hlog. by destruct (launches e).
Qed.

(** X3.  Notes once stored are never regenerated or overwritten, whatever
    page is executed and whatever is pressed. *)
Theorem stored_notes_kept e pg σ text :
  notes (current σ) = Some text →
  notes (current (execute e pg σ).2) = Some text.
Proof.
  intros Hnotes. destruct (execute_page_step e pg σ) as (_ & _ & Hkeep & _).
  apply Hkeep. unfold booted. by destruct (launches e).
Qed.

(** ** The notes page *)

Lemma booted_fields e s :
  user_input (booted e s) = user_input s ∧ notes (booted e s) = notes s ∧
  messages (booted e s) = messages s ∧ first_time (booted e s) = first_time s ∧
  groq_api_key (booted e s) = groq_api_key s ∧
  quiz_part (booted e s) = quiz_part s.
Proof. unfold booted. by destruct (launches e). Qed.

Lemma has_key_booted e s : has_key e (booted e s) = has_key e s.
Proof. unfold booted. by destruct (launches e). Qed.

(** Runs the page of an execution whose chat model can be built, by [Hkey]. *)
Ltac keyed Hkey :=
  cbn [run]; rewrite ?notes_page_run, ?qna_page_run, ?quiz_page_run; cbn [ss];
  rewrite ?has_key_booted, ?Hkey.

(** X4.  With notes stored, a topic other than the empty string and a key
    for the chat model, the
    notes page finishes after drawing the stored text: it draws no button,
    invokes no chain and leaves the store as the bootstrap left it. *)
Theorem notes_redisplay e σ text :
  has_key e (current σ) = true →
  notes (current σ) = Some text → user_input (current σ) ≠ Some "" →
  ∃ o, render e NotesPage σ =
         (Ret (), {| ss := booted e (current σ);
                     out := o ++ [Markdown text];
                     cache := questions_cache σ |}) ∧
       Forall bootstrap_action o.
Proof.
  intros Hkey Hnotes Htopic. destruct (render_from e NotesPage σ) as (o & -> & Ho).
  exists o. split; [|done].
  destruct (booted_fields e (current σ)) as (Hu & Hn & _).
  keyed Hkey.
  unfold Notes.body. unmonad. simpl. rewrite Hu, Hn, Hnotes.
  by rewrite bool_decide_eq_false_2.
Qed.

(** X5.  Pressing 'Generate Notes' with no notes stored, a topic other
    than the empty string and a key for the chat model invokes the notes chain on the topic; the
    concatenation of the streamed chunks is stored as the notes and the
    execution finishes, or the failure of the chain ends the execution and
    nothing is stored. *)
Theorem notes_generation e σ :
  has_key e (current σ) = true →
  notes (current σ) = None → user_input (current σ) ≠ Some "" →
  pressed e = Some "Generate Notes" →
  execute e NotesPage σ =
    match notes_chain e (user_input (current σ)) with
    | inr chunks =>
        (Ret (),
         {| store := Some (set_notes (Some (String.concat "" chunks))
                             (booted e (current σ)));
            questions_cache := questions_cache σ |})
    | inl ex =>
        (Raise ex,
         {| store := Some (booted e (current σ));
            questions_cache := questions_cache σ |})
    end.
Proof.
  intros Hkey Hnotes Htopic Hpress. unfold execute.
  destruct (render_from e NotesPage σ) as (o & -> & Ho).
  destruct (booted_fields e (current σ)) as (Hu & Hn & _).
  keyed Hkey.
  unfold Notes.body. unmonad. simpl. rewrite Hu, Hn, Hnotes, Hpress.
  rewrite bool_decide_eq_false_2 by done. simpl.
  by destruct (notes_chain e (user_input (current σ))).
Qed.

(** ** The home page *)

(** X6.  Every execution of the home page finishes; it overwrites the topic
    and the API key with the values of the form, lowers the first-visit
    flag, and changes nothing else in the store the bootstrap left. *)
Theorem home_page_store e σ :
  execute e HomePage σ =
    (Ret (),
     {| store := Some (set_user_input (Some (text_area e))
                         (set_groq_api_key (Some (text_input e))
                            (set_first_time false (booted e (current σ)))));
        questions_cache := questions_cache σ |}).
Proof.
  unfold execute. destruct (render_from e HomePage σ) as (o & -> & Ho).
  generalize (booted e (current σ)). intros s.
  unfold run, Main.page. unmonad. simpl.
  destruct s as [? ? ? ? ? ? ? ? ? ? ? []]; simpl;
    by destruct (negb _ && negb _).
Qed.

(** X7.  The introduction is streamed on the first execution of the home
    page only: once the first-visit flag is down, every execution keeps it
    down, and the home page writes the introduction at once instead of
    streaming it. *)
Theorem introduction_streamed_once e σ :
  first_time (current σ) = false →
  (∀ pg, first_time (current (execute e pg σ).2) = false) ∧
  (Write Main.subheader ∈ out (render e HomePage σ).2) ∧
  (WriteStream Main.subheader ∉ out (render e HomePage σ).2).
Proof.
  intros Hfirst. split_and?.
  - intros pg. destruct (execute_page_step e pg σ) as (_ & _ & _ & Hkeep).
    apply Hkeep. by destruct (booted_fields e (current σ)) as (_ & _ & _ & -> & _).
  - destruct (render_from e HomePage σ) as (o & -> & Ho).
    destruct (booted_fields e (current σ)) as (_ & _ & _ & Hf & _).
    unfold run, Main.page. unmonad. simpl. rewrite Hf, Hfirst. simpl.
    destruct (negb _ && negb _); simpl; member.
  - destruct (render_from e HomePage σ) as (o & -> & Ho).
    assert (WriteStream Main.subheader ∉ o)
      by (apply not_bootstrap_action; [done | by intros []]).
    destruct (booted_fields e (current σ)) as (_ & _ & _ & Hf & _).
    unfold run, Main.page. unmonad. simpl. rewrite Hf, Hfirst. simpl.
    destruct (negb _ && negb _); simpl;
      rewrite ?elem_of_app, ?elem_of_cons, ?elem_of_nil;
      intros Hin; decompose [or] Hin; try done; try discriminate.
Qed.

(** ** The question cache *)

#[local] Instance cache_hit_preorder : PreOrder cache_hit.
Proof.
  split.
  - intros w all H. split; [done|]. exists []. by rewrite app_nil_r.
  - intros w1 w2 w3 H12 H23 all H1.
    destruct (H12 all H1) as (H2 & o1 & Ho1 & HP1).
    destruct (H23 all H2) as (H3 & o2 & Ho2 & HP2).
    split; [done|]. exists (o1 ++ o2).
    rewrite Ho2, Ho1, app_assoc. split; [done | by apply Forall_app].
Qed.

Ltac cache_hitting :=
  intros w all Hall; simpl; (split; [exact Hall|]);
  first
    [ exists []; by rewrite app_nil_r
    | eexists [_]; split; [reflexivity|];
      constructor; [intros arg; discriminate | constructor] ].

Lemma cache_hit_questions e : steady cache_hit (QnA.cache_questions e).
Proof.
  intros [s o ca] all Hall. simpl in Hall. subst ca.
  unfold QnA.cache_questions. unmonad. simpl.
  split; [done|]. exists []. by rewrite app_nil_r.
Qed.

Lemma cache_hit_run e pg : steady cache_hit (run e pg).
Proof.
  pose proof (cache_hit_questions e) as Hq.
  destruct pg; simpl.
  - unfold Main.page, button, call, write_stream. steadying cache_hitting.
  - unfold Notes.page, Notes.body, button, call, write_stream. steadying cache_hitting.
  - unfold QnA.page, QnA.body, QnA.generate_qna, QnA.ask, QnA.append_message,
      button, call, write_stream.
    steadying cache_hitting.
  - unfold Quiz.page, Quiz.body, Quiz.quiz, Quiz.answer_of, Quiz.lookup,
      Quiz.add_attempted, button, call, write_stream.
    steadying cache_hitting.
Qed.

Lemma bootstrap_action_not_call c x : bootstrap_action x → not_call c x.
Proof. intros Hx arg ->. exact Hx. Qed.

(** X8.  Once the question list is cached, every execution keeps it, and no
    execution invokes the questions chain again, whatever the topic has
    become: 'Generate Question Answers' then answers the cached
    questions. *)
Theorem questions_generated_once e pg σ all :
  questions_cache σ = Some all →
  questions_cache (execute e pg σ).2 = Some all ∧
  Forall (not_call QuestionsChain) (out (render e pg σ).2).
Proof.
  intros Hall.
  change (questions_cache (execute e pg σ).2) with (cache (render e pg σ).2).
  destruct (render_from e pg σ) as (o & -> & Ho).
  match goal with
  | |- context [run e pg ?w] =>
      destruct (cache_hit_run e pg w all Hall) as (Hca & o' & -> & Ho')
  end.
  split; [done|]. simpl. apply Forall_app. split; [|done].
  eapply Forall_impl; [exact Ho | apply bootstrap_action_not_call].
Qed.

(** ** A failing answer *)

Lemma ask_answered e ques w chunks :
  answer_chain e ques = inr chunks →
  ∃ w', QnA.ask e ques w = (Ret (), w') ∧
        messages (ss w') = messages (ss w) ++ logged e ques ∧
        cache w' = cache w.
Proof.
  intros Hans. destruct w as [s o ca]. eexists.
  unfold QnA.ask, QnA.append_message, logged, answer_text. unmonad. simpl.
  rewrite Hans. simpl. split; [done|]. simpl. by rewrite <-app_assoc.
Qed.

Lemma ask_unanswered e ques w ex :
  answer_chain e ques = inl ex →
  ∃ w', QnA.ask e ques w = (Raise ex, w') ∧
        messages (ss w') =
          messages (ss w) ++ [{| role := "assistant"; content := ques |}] ∧
        cache w' = cache w.
Proof.
  intros Hans. destruct w as [s o ca]. eexists.
  unfold QnA.ask, QnA.append_message. unmonad. simpl.
  rewrite Hans. simpl. done.
Qed.

Lemma for_each_ask_fails e asked ques rest ex w :
  (∀ q, q ∈ asked → ∃ chunks, answer_chain e q = inr chunks) →
  answer_chain e ques = inl ex →
  ∃ w', for_each (asked ++ ques :: rest) (QnA.ask e) w = (Raise ex, w') ∧
        messages (ss w') =
          messages (ss w) ++ flat_map (logged e) asked ++
          [{| role := "assistant"; content := ques |}] ∧
        cache w' = cache w.
Proof.
  intros Hasked Hfail. revert w.
  induction asked as [|q asked IH]; intros w; simpl.
  - destruct (ask_unanswered e ques w ex Hfail) as (w' & H & Hm & Hc).
    exists w'. by rewrite bind_apply, H.
  - destruct (Hasked q) as [chunks Hq]; [by left|].
    destruct (ask_answered e q w chunks Hq) as (w1 & H1 & Hm1 & Hc1).
    destruct (IH (λ q' Hq', Hasked q' (list_elem_of_further _ _ _ Hq')) w1)
      as (w2 & H2 & Hm2 & Hc2).
    exists w2. rewrite bind_apply, H1. split; [done|].
    rewrite Hm2, Hm1, Hc2, Hc1. by rewrite <-!app_assoc.
Qed.

Lemma cache_questions_fills e w all :
  cache w = Some all ∨
  cache w = None ∧ QnA.questions_chain e (user_input (ss w)) = inr all →
  ∃ w', QnA.cache_questions e w = (Ret all, w') ∧ ss w' = ss w ∧
        cache w' = Some all.
Proof.
  destruct w as [s o ca]. simpl. unfold QnA.cache_questions. unmonad. simpl.
  intros [-> | [-> Hq]]; simpl; [by eexists|].
  rewrite Hq. simpl. by eexists.
Qed.

(** X9.  When the answer chain fails on a question, generate_qna stops with
    that failure; the log then holds the pairs of the questions answered
    before it, followed by the failing question without an answer, and the
    question list stays cached. *)
Theorem answer_failure_leaves_question e w all asked ques rest ex :
  cache w = Some all ∨
  cache w = None ∧ QnA.questions_chain e (user_input (ss w)) = inr all →
  drop 1 all = asked ++ ques :: rest →
  (∀ q, q ∈ asked → ∃ chunks, answer_chain e q = inr chunks) →
  answer_chain e ques = inl ex →
  (QnA.generate_qna e w).1 = Raise ex ∧
  messages (ss (QnA.generate_qna e w).2) =
    messages (ss w) ++ flat_map (logged e) asked ++
    [{| role := "assistant"; content := ques |}] ∧
  cache (QnA.generate_qna e w).2 = Some all.
Proof.
  intros Hall Hdrop Hasked Hfail.
  destruct (cache_questions_fills e w all Hall) as (w1 & H1 & Hss & Hca).
  destruct (for_each_ask_fails e asked ques rest ex w1 Hasked Hfail)
    as (w2 & H2 & Hm & Hc).
  unfold QnA.generate_qna. rewrite bind_apply, H1. unfold Py.slice_from_1.
  rewrite Hdrop, H2. simpl. by rewrite Hm, Hc, Hss, Hca.
Qed.

(** ** The quiz over a session *)

Lemma reachable_attempted σ :
  reachable σ →
  attempted_questions (current σ) =
    set_seq 0 (current_question_idx (current σ)).
Proof.
  induction 1 as [|e pg σ _ IH]; [done|].
  destruct (execute_evolves e pg σ) as [Hsame | (_ & qs & _ & _ & _ & Hcase)].
  - apply quiz_part_eq in Hsame as (_ & -> & _ & -> & _). exact IH.
  - destruct Hcase as [[Hp _] | (? & ? & ? & _ & _ & _ & _ & Hp & _)];
      apply progress_is in Hp as (_ & -> & ->); [exact IH|].
    rewrite IH, Nat.add_1_r, set_seq_S_end_union_L. simpl.
    apply union_comm_L.
Qed.

(** X10.  In every reachable session the attempted questions are exactly the
    indices below the current index: questions are attempted in order,
    none is skipped and none is attempted beyond the index. *)
Theorem attempted_are_the_indices_below σ :
  reachable σ →
  attempted_questions (current σ) =
    set_seq 0 (current_question_idx (current σ)) ∧
  size (attempted_questions (current σ)) = current_question_idx (current σ).
Proof.
  intros Hreach. rewrite (reachable_attempted σ Hreach).
  split; [done | apply size_set_seq].
Qed.

Lemma chosen_of e c : submits e (Some c) → chosen e = c.
Proof. intros [_ Hr]. unfold chosen. by rewrite Hr. Qed.

Lemma play_score fuel qs es σ :
  1 ≤ fuel → Forall four_options qs → Forall submission es →
  Forall (λ e, has_key e (current σ) = true) es →
  quiz_questions (current σ) = Some qs →
  quiz_completed (current σ) = false →
  current_question_idx (current σ) + length es ≤ length qs →
  score (current (play fuel es σ)) =
    score (current σ) + tally (drop (current_question_idx (current σ)) qs) es.
Proof.
  intros Hfuel Hall Hes. revert σ.
  induction Hes as [|e es (c & Hsub & Hc) Hes IH]; intros σ Hkeys Hqs Hdone Hlen.
  { simpl. destruct (drop _ qs); simpl; lia. }
  simpl in Hlen. apply Forall_cons in Hkeys as [Hkey Hkeys].
  assert (Forall (λ e0, has_key e0 (current (interact fuel e QuizPage σ).2) = true)
            es) as Hkeys1.
  { eapply Forall_impl; [exact Hkeys|]. intros e0 <-.
    apply has_key_ext; [done|]. apply (foreign_key QuizPage); [done|].
    apply interact_foreign. }
  destruct (lookup_lt_is_Some_2 qs (current_question_idx (current σ))) as [q Hq];
    [lia|].
  pose proof (interact_submission fuel e σ qs q c Hfuel Hkey) as Hstep.
  apply quiz_part_is in Hstep as (Hq1 & Hi1 & Hs1 & _ & Hc1 & _); try done.
  rewrite (drop_S _ _ _ Hq). cbn [tally play foldl].
  rewrite (chosen_of e c Hsub).
  destruct es as [|e' es].
  { simpl. rewrite Hs1. destruct (drop _ qs); simpl; lia. }
  rewrite bool_decide_eq_false_2 in Hc1 by (simpl in Hlen; lia).
  change (foldl _ _ (e' :: es)) with
    (play fuel (e' :: es) (interact fuel e QuizPage σ).2).
  rewrite (IH _ Hkeys1 Hq1 Hc1) by (rewrite Hi1; simpl in *; lia).
  rewrite Hs1, Hi1, Nat.add_1_r. lia.
Qed.

(** X11.  On a quiz taken from its first question with submissions whose
    radio value is A, B, C or D, on a quiz page whose chat model can be
    built, the score gained is the number of
    submissions whose chosen label the question at the same position maps
    to true. *)
Theorem score_counts_correct_answers fuel qs σ es :
  1 ≤ fuel → Forall four_options qs → Forall submission es →
  Forall (λ e, has_key e (current σ) = true) es →
  quiz_questions (current σ) = Some qs →
  quiz_completed (current σ) = false →
  current_question_idx (current σ) = 0 →
  length es ≤ length qs →
  score (current (play fuel es σ)) = score (current σ) + tally qs es.
Proof.
  intros Hfuel Hall Hes Hkeys Hqs Hdone Hidx Hlen.
  rewrite (play_score fuel qs es σ); try done; rewrite Hidx; [done | lia].
Qed.

(** X12.  A completed quiz is final: no interaction on any page changes the
    score, the attempted set or the index, and the flag stays up. *)
Theorem completed_quiz_is_final fuel e pg σ :
  quiz_completed (current σ) = true →
  progress (current (interact fuel e pg σ).2) = progress (current σ) ∧
  quiz_completed (current (interact fuel e pg σ).2) = true.
Proof.
  intros Hdone. split; [|by apply interact_completed].
  rewrite interact_progress_execute.
  destruct (execute_evolves e pg σ) as [Hsame | (_ & qs & _ & _ & _ & Hcase)].
  - apply quiz_part_eq in Hsame as (_ & Hi & Hsc & Ha & _).
    unfold progress. by rewrite Hi, Hsc, Ha.
  - destruct Hcase as [[Hp _] | (? & ? & ? & (_ & Hc & _) & _)]; [done|].
    congruence.
Qed.

Lemma execute_empty e σ :
  has_key e (current σ) = true →
  quiz_questions (current σ) = Some [] →
  (execute e QuizPage σ).1 = Raise Py.ZeroDivisionError.
Proof.
  intros Hkey Hqs. destruct (execute_quiz e σ) as (w & Hw & Hk & ->).
  rewrite <-Hk in Hkey.
  apply quiz_part_eq in Hw as (Hq & _). rewrite <-Hq in Hqs.
  rewrite (quiz_page_stored e w []) by done. by apply quiz_empty.
Qed.

Lemma execute_keeps_questions e pg σ qs :
  quiz_questions (current σ) = Some qs →
  quiz_questions (current (execute e pg σ).2) = Some qs.
Proof.
  intros Hqs.
  destruct (execute_evolves e pg σ) as [Hsame | (_ & qs' & Hwas & Hqs' & _)].
  - apply quiz_part_eq in Hsame as (-> & _). done.
  - destruct Hwas; congruence.
Qed.

(** X13.  A record with fewer than four options blocks the quiz: with it as
    the current record, every execution of the quiz page fails, with an
    index out of range when the chat model can be built and at the
    construction of the chat model otherwise, and no execution of any page
    moves the quiz off that record. *)
Theorem short_record_blocks_quiz e σ qs q :
  in_progress (current σ) qs q → ¬ four_options q →
  (execute e QuizPage σ).1 =
    Raise (if has_key e (current σ) then Py.IndexError else Py.GroqError) ∧
  (∀ pg, in_progress (current (execute e pg σ).2) qs q).
Proof.
  intros Hin Hfew. split.
  - destruct (execute_quiz e σ) as (w & Hw & Hk & ->). rewrite <-Hk.
    destruct (has_key e (ss w)) eqn:Hkey;
      [|by rewrite quiz_page_run, Hkey].
    pose proof (in_progress_from _ _ _ _ Hw Hin) as Hin'.
    rewrite (quiz_page_stored e w qs) by (done || apply Hin').
    by apply (quiz_few_options e w qs q).
  - intros pg. destruct Hin as (Hqs & Hdone & Hq).
    pose proof (lookup_lt_Some _ _ _ Hq) as Hlt.
    destruct (execute_evolves e pg σ) as [Hsame | (_ & qs' & Hwas & Hqs' & _ & Hcase)].
    + apply quiz_part_eq in Hsame as (Hq' & Hi & _ & _ & Hc & _).
      unfold in_progress. by rewrite Hq', Hi, Hc.
    + assert (qs' = qs) as -> by (destruct Hwas; congruence).
      destruct Hcase as [[Hp Hc] | (qs0 & q0 & ? & (Hqs0 & _ & Hq0) & Hfour & _)].
      * apply progress_is in Hp as (_ & _ & Hi).
        unfold in_progress. rewrite Hqs', Hi. split_and?; [done | | done].
        destruct Hc as [-> | (_ & qs1 & Hqs1 & Hlen)]; [done|].
        rewrite Hqs' in Hqs1. injection Hqs1 as <-. lia.
      * rewrite Hqs in Hqs0. injection Hqs0 as <-.
        rewrite Hq in Hq0. injection Hq0 as <-. done.
Qed.

(** ** Generating the quiz *)

Lemma process_id x : Quiz.process x = x.
Proof.
  unfold Quiz.process. induction x as [|[] x IH]; simpl; [done|].
  by rewrite IH.
Qed.

Lemma quiz_chain_returns e topic x :
  model_quiz e topic = inr x →
  Quiz.quiz_chain e topic = inr (response_content x).
Proof.
  intros H. unfold Quiz.quiz_chain, Quiz.to_quiz_questions.
  by rewrite H, process_id.
Qed.

(** The quiz page when the generation succeeds. *)
Lemma quiz_page_generates e w x :
  quiz_questions (ss w) = None → pressed e = Some "Generate Quiz" →
  model_quiz e (user_input (ss w)) = inr x →
  ∃ o,
    Quiz.body e w =
      match Quiz.quiz e {| ss := set_quiz_questions (Some (response_content x)) (ss w);
                           out := o; cache := cache w |} with
      | (Ret _, w') =>
          (Ret (),
           {| ss := ss w';
              out := out w' ++
                     [Markdown (nl +:+ "Click generate quiz to generate a quiz")];
              cache := cache w' |})
      | (Rerun, w') => (Rerun, w')
      | (Raise ex, w') => (Raise ex, w')
      end.
Proof.
  intros Hqs Hpress Hx. destruct w as [s o ca]. simpl in *.
  eexists. unfold Quiz.body. unmonad. simpl.
  rewrite Hqs, Hpress, (quiz_chain_returns _ _ _ Hx). simpl. reflexivity.
Qed.

Lemma execute_generates e σ x :
  has_key e (current σ) = true →
  quiz_questions (current σ) = None → pressed e = Some "Generate Quiz" →
  model_quiz e (user_input (current σ)) = inr x →
  ∃ w, quiz_part (ss w) =
         quiz_part (set_quiz_questions (Some (response_content x)) (current σ)) ∧
       execute e QuizPage σ =
         match Quiz.quiz e w with
         | (Ret _, w') => (Ret (), persist w')
         | (Rerun, w') => (Rerun, persist w')
         | (Raise ex, w') => (Raise ex, persist w')
         end.
Proof.
  intros Hkey Hqs Hpress Hx. unfold execute.
  destruct (render_from e QuizPage σ) as (o & -> & _).
  destruct (booted_fields e (current σ)) as (Hu & _ & _ & _ & _ & Hpart).
  apply quiz_part_eq in Hpart as (Hq & Hi & Hsc & Ha & Hc & Ht).
  keyed Hkey.
  match goal with
  | |- context [Quiz.body e ?w] =>
      destruct (quiz_page_generates e w x) as (o' & Hpage); simpl;
        [congruence | done | by rewrite Hu |]
  end.
  simpl in Hpage. rewrite Hpage.
  match goal with
  | |- context [Quiz.quiz e ?w] => exists w; destruct (Quiz.quiz e w) as [[] ?]
  end; (split; [|done]); unfold quiz_part; simpl; by rewrite Hi, Hsc, Ha, Hc, Ht.
Qed.

(** X14.  'Generate Quiz' on a session without a quiz and with a key for the
    chat model, when the model returns
    a non-empty list of records whose first has four options, stores the
    records as returned, sets the total to their number, draws the first
    question and finishes; the index, the score and the attempted set are
    untouched. *)
Theorem quiz_generation e σ x q :
  has_key e (current σ) = true →
  quiz_questions (current σ) = None →
  quiz_completed (current σ) = false →
  current_question_idx (current σ) = 0 →
  pressed e = Some "Generate Quiz" →
  model_quiz e (user_input (current σ)) = inr x →
  head (response_content x) = Some q → four_options q →
  (execute e QuizPage σ).1 = Ret () ∧
  quiz_part (current (execute e QuizPage σ).2) =
    (Some (response_content x), 0, score (current σ),
     attempted_questions (current σ), false, length (response_content x)).
Proof.
  intros Hkey Hqs Hdone Hidx Hpress Hx Hhead Hfour.
  destruct (execute_generates e σ x Hkey Hqs Hpress Hx) as (w & Hw & ->).
  apply quiz_part_is in Hw as (Hq & Hi & Hsc & Ha & Hc & _). simpl in *.
  destruct (quiz_idle e w (response_content x) q) as (w' & -> & Hss);
    [| done | congruence |].
  { unfold in_progress. rewrite Hq, Hc, Hi, Hidx. split_and?; try done.
    by destruct (response_content x). }
  split; [done|]. cbn [snd]. rewrite current_persist, Hss.
  unfold quiz_part. simpl. by rewrite Hq, Hi, Hsc, Ha, Hc, Hidx, Hdone.
Qed.

(** X15.  When the model returns no record, 'Generate Quiz' stores the empty
    list and fails with a division by zero; from then on every execution
    of the quiz page fails, the same way when the chat model can be built
    and at its construction otherwise, and no execution of any page
    replaces the stored list. *)
Theorem empty_generation_blocks_quiz e σ x :
  has_key e (current σ) = true →
  quiz_questions (current σ) = None →
  pressed e = Some "Generate Quiz" →
  model_quiz e (user_input (current σ)) = inr x →
  response_content x = [] →
  (execute e QuizPage σ).1 = Raise Py.ZeroDivisionError ∧
  quiz_questions (current (execute e QuizPage σ).2) = Some [] ∧
  (∀ e', (execute e' QuizPage (execute e QuizPage σ).2).1 =
           Raise (if has_key e' (current σ) then Py.ZeroDivisionError
                  else Py.GroqError)) ∧
  (∀ e' pg, quiz_questions
              (current (execute e' pg (execute e QuizPage σ).2).2) = Some []).
Proof.
  intros Hkey Hqs Hpress Hx Hempty.
  assert ((execute e QuizPage σ).1 = Raise Py.ZeroDivisionError ∧
          quiz_questions (current (execute e QuizPage σ).2) = Some [])
    as [Hfail Hstored].
  { destruct (execute_generates e σ x Hkey Hqs Hpress Hx) as (w & Hw & ->).
    apply quiz_part_is in Hw as (Hq & _). simpl in Hq. rewrite Hempty in Hq.
    pose proof (quiz_empty e w Hq) as Hr.
    destruct (Quiz.quiz e w) as [r w'] eqn:Hquiz. simpl in Hr. subst r.
    split; [done|]. cbn [snd]. rewrite current_persist.
    by destruct (quiz_cases e w [] _ w' Hq Hquiz) as (-> & _). }
  split_and?; try done.
  - intros e'.
    assert (has_key e' (current (execute e QuizPage σ).2) =
            has_key e' (current σ)) as Hsame.
    { apply has_key_ext; [done|]. apply (foreign_key QuizPage); [done|].
      apply execute_foreign. }
    rewrite <-Hsame.
    destruct (has_key e' (current (execute e QuizPage σ).2)) eqn:Hkey';
      [by apply execute_empty|].
    destruct (execute_quiz e' (execute e QuizPage σ).2) as (w & _ & Hk & ->).
    rewrite Hkey' in Hk. by rewrite quiz_page_run, Hk.
  - intros e' pg. by apply execute_keeps_questions.
Qed.

(** ** A stored quiz is not generated again *)

#[local] Instance quiz_kept_preorder : PreOrder quiz_kept.
Proof.
  split.
  - intros w qs H. split; [done|]. exists []. by rewrite app_nil_r.
  - intros w1 w2 w3 H12 H23 qs H1.
    destruct (H12 qs H1) as (H2 & o1 & Ho1 & HP1).
    destruct (H23 qs H2) as (H3 & o2 & Ho2 & HP2).
    split; [done|]. exists (o1 ++ o2).
    rewrite Ho2, Ho1, app_assoc. split; [done | by apply Forall_app].
Qed.

Ltac quiz_keeping :=
  intros [[] ? ?] qs Hqs; simpl in *; (split; [exact Hqs|]);
  first
    [ exists []; by rewrite app_nil_r
    | eexists [_]; split; [reflexivity|];
      constructor; [intros arg; discriminate | constructor] ].

Lemma quiz_kept_quiz e : steady quiz_kept (Quiz.quiz e).
Proof.
  unfold Quiz.quiz, Quiz.answer_of, Quiz.lookup, Quiz.add_attempted, button.
  steadying quiz_keeping.
Qed.

Lemma quiz_kept_page e : steady quiz_kept (Quiz.page e).
Proof.
  intros w qs Hqs.
  destruct (has_key e (ss w)) eqn:Hkey.
  - rewrite (quiz_page_stored e w qs Hkey Hqs). by apply quiz_kept_quiz.
  - rewrite quiz_page_run, Hkey. simpl. split; [done|].
    exists []. by rewrite app_nil_r.
Qed.

Lemma quiz_kept_run e pg : steady quiz_kept (run e pg).
Proof.
  destruct pg; simpl.
  - unfold Main.page, button, call, write_stream. steadying quiz_keeping.
  - unfold Notes.page, Notes.body, button, call, write_stream. steadying quiz_keeping.
  - unfold QnA.page, QnA.body, QnA.generate_qna, QnA.ask, QnA.cache_questions,
      QnA.append_message, button, call, write_stream.
    steadying quiz_keeping.
  - apply quiz_kept_page.
Qed.

(** X16.  A quiz is generated at most once in a session: with a question list
    stored, every execution of every page keeps that list and none invokes
    the quiz chain, whatever is pressed. *)
Theorem quiz_generated_once e pg σ qs :
  quiz_questions (current σ) = Some qs →
  quiz_questions (current (execute e pg σ).2) = Some qs ∧
  Forall (not_call QuizChain) (out (render e pg σ).2).
Proof.
  intros Hqs.
  change (current (execute e pg σ).2) with (ss (render e pg σ).2).
  destruct (render_from e pg σ) as (o & -> & Ho).
  destruct (booted_fields e (current σ)) as (_ & _ & _ & _ & _ & Hpart).
  apply quiz_part_eq in Hpart as (Hq & _). rewrite <-Hq in Hqs.
  match goal with
  | |- context [run e pg ?w] =>
      destruct (quiz_kept_run e pg w qs Hqs) as (Hkept & o' & -> & Ho')
  end.
  split; [done|]. simpl. apply Forall_app. split; [|done].
  eapply Forall_impl; [exact Ho | apply bootstrap_action_not_call].
Qed.

(** ** Re-executions settle *)

Section calm.
Context {A B : Type}.

Lemma calm_returns (m : script A) : (∀ w, ∃ a, (m w).1 = Ret a) → calm m.
Proof. intros H w. destruct (H w) as [a ->]. done. Qed.

Lemma calm_raise ex : calm (raise (A:=A) ex).
Proof. by intros w. Qed.

Lemma calm_ret (a : A) : calm (mret a).
Proof. by intros w. Qed.

Lemma calm_index (l : list A) i : calm (index l i).
Proof. intros w. unfold index. by destruct (l !! i). Qed.

Lemma calm_call c arg (r : Py.exception + A) : calm (call c arg r).
Proof. intros w. unfold call. unmonad. by destruct r. Qed.

Lemma calm_bind (m : script A) (k : A → script B) :
  calm m → (∀ a, calm (k a)) → calm (m ≫= k).
Proof.
  intros Hm Hk w. unfold mbind, script_bind, bind.
  specialize (Hm w). destruct (m w) as [[a| |ex] w1]; simpl in *; try done.
  apply Hk.
Qed.
End calm.

Lemma calm_for_each {A} (xs : list A) (body : A → script unit) :
  (∀ x, calm (body x)) → calm (for_each xs body).
Proof.
  intros Hbody. induction xs as [|x xs IH]; simpl.
  - apply calm_ret.
  - apply calm_bind; [apply Hbody | by intros _].
Qed.

Lemma calm_state : calm state.
Proof. by intros w. Qed.

Lemma calm_modify f : calm (modify f).
Proof. by intros w. Qed.

Lemma calm_emit x : calm (emit x).
Proof. by intros w. Qed.

Lemma calm_cached : calm cached.
Proof. by intros w. Qed.

Lemma calm_memoize qs : calm (memoize qs).
Proof. by intros w. Qed.

Lemma calm_button e label : calm (button e label).
Proof. by intros w. Qed.

Lemma calm_write_stream chunks : calm (write_stream chunks).
Proof. by intros w. Qed.

Lemma calm_ChatGroq e key : calm (ChatGroq e key).
Proof. intros w. rewrite ChatGroq_run. by destruct (_ || _). Qed.

Ltac calming :=
  repeat first
    [ progress intros
    | apply calm_bind
    | apply calm_for_each
    | apply calm_ret | apply calm_raise | apply calm_index | apply calm_call
    | apply calm_state | apply calm_modify | apply calm_emit
    | apply calm_cached | apply calm_memoize | apply calm_button
    | apply calm_write_stream | apply calm_ChatGroq
    | match goal with
      | |- calm (if ?b then _ else _) => destruct b
      | |- calm (match ?x with _ => _ end) => destruct x
      end ].

Lemma calm_main e : calm (Main.page e).
Proof. unfold Main.page. calming. Qed.

Lemma calm_notes e : calm (Notes.page e).
Proof. unfold Notes.page, Notes.body. calming. Qed.

Lemma calm_qna e : calm (QnA.page e).
Proof.
  unfold QnA.page, QnA.body, QnA.generate_qna, QnA.ask, QnA.cache_questions,
    QnA.append_message.
  calming.
Qed.

(** When the quiz asks for a re-execution: the flag was down, and either
    'Next Question' was pressed or the flag has just been set. *)
Lemma quiz_rerun e w w' :
  Quiz.quiz e w = (Rerun, w') →
  quiz_completed (ss w) = false ∧
  (pressed e = Some "Next Question" ∨ quiz_completed (ss w') = true).
Proof.
  intros H. destruct w as [s o c]. simpl in *.
  unfold Quiz.quiz in H. unmonad. simpl in H.
  destruct (quiz_questions s) as [qs|]; simpl in H; [|done].
  case_bool_decide as Hlen; simpl in H; [done|].
  destruct (quiz_completed s) eqn:Hdone; simpl in H.
  { rewrite Hdone in H. done. }
  split; [done|].
  case_bool_decide as Hidx; simpl in H.
  2:{ case_bool_decide; simpl in H; [|by rewrite Hdone in H].
      simplify_eq/=. by right. }
  destruct (qs !! current_question_idx s) as [q|]; simpl in H; [|done].
  destruct (Py.keys (options q) !! 0) as [k0|]; simpl in H; [|done].
  destruct (Py.keys (options q) !! 1) as [k1|]; simpl in H; [|done].
  destruct (Py.keys (options q) !! 2) as [k2|]; simpl in H; [|done].
  destruct (Py.keys (options q) !! 3) as [k3|]; simpl in H; [|done].
  case_bool_decide as Hpress; simpl in H; [by left|].
  case_bool_decide; [lia|]. simpl in H. by rewrite Hdone in H.
Qed.

Lemma quiz_page_rerun e w w' :
  Quiz.page e w = (Rerun, w') →
  quiz_completed (ss w) = false ∧
  (pressed e = Some "Next Question" ∨ quiz_completed (ss w') = true).
Proof.
  rewrite quiz_page_run. destruct (has_key e (ss w)) eqn:Hkey; [|done].
  destruct (quiz_questions (ss w)) as [qs|] eqn:Hqs.
  { rewrite (quiz_body_stored e w qs Hqs). apply quiz_rerun. }
  destruct w as [s o c]. simpl in *.
  unfold Quiz.body. unmonad. simpl. rewrite Hqs.
  case_bool_decide as Hpress; simpl; [|done].
  destruct (Quiz.quiz_chain e (user_input s)) as [ex|qs]; simpl; [done|].
  destruct (Quiz.quiz e _) as [[[]| |ex] w1] eqn:Hquiz; simpl; try done.
  intros [= <-]. by apply quiz_rerun in Hquiz.
Qed.

Lemma execute_rerun e pg σ σ' :
  execute e pg σ = (Rerun, σ') →
  pg = QuizPage ∧ quiz_completed (current σ) = false ∧
  (pressed e = Some "Next Question" ∨ quiz_completed (current σ') = true).
Proof.
  unfold execute, render. rewrite app_run.
  pose proof (frames_bootstrap e (world_of σ)) as Hb.
  apply quiz_part_eq in Hb as (_ & _ & _ & _ & Hc & _).
  change (quiz_completed (ss (world_of σ))) with (quiz_completed (current σ)) in Hc.
  rewrite <-Hc.
  destruct pg; simpl.
  - intros [= H _]. by apply calm_main in H.
  - intros [= H _]. by apply calm_notes in H.
  - intros [= H _]. by apply calm_qna in H.
  - destruct (Quiz.page e _) as [r w'] eqn:Hpage. simpl.
    intros [= -> <-]. apply quiz_page_rerun in Hpage. by split.
Qed.

(** An interaction followed by two re-executions does not end asking for
    another one. *)
Lemma interact_2_settles e pg σ : (interact 2 e pg σ).1 ≠ Rerun.
Proof.
  rewrite interact_unfold.
  destruct (execute e pg σ) as [r1 σ1] eqn:H1. cbn [fst snd].
  destruct r1; try done.
  apply execute_rerun in H1 as (-> & _ & _).
  rewrite interact_unfold.
  destruct (execute (released e) QuizPage σ1) as [r2 σ2] eqn:H2. cbn [fst snd].
  destruct r2; try done.
  apply execute_rerun in H2 as (_ & _ & [Hpress | Hdone]); [done|].
  rewrite interact_unfold.
  destruct (execute (released (released e)) QuizPage σ2) as [r3 σ3] eqn:H3.
  cbn [fst snd]. destruct r3; try done.
  apply execute_rerun in H3 as (_ & Hoff & _). congruence.
Qed.

Lemma interact_settled n e pg σ :
  (interact n e pg σ).1 ≠ Rerun →
  ∀ m, n ≤ m → interact m e pg σ = interact n e pg σ.
Proof.
  revert e σ. induction n as [|n IH]; intros e σ Hn m Hm.
  - rewrite (interact_unfold m), (interact_unfold 0) in *.
    destruct (execute e pg σ) as [[]?]; simpl in *; try done; by destruct m.
  - destruct m as [|m]; [lia|].
    rewrite (interact_unfold (S m)), (interact_unfold (S n)) in *.
    destruct (execute e pg σ) as [[]?]; cbn [fst snd] in *; try done.
    apply IH; [done | lia].
Qed.

(** X17.  The re-executions asked by [st.rerun()] settle: on every page, in
    every session and whatever is pressed, an interaction is over after at
    most two re-executions; allowing more changes nothing. *)
Theorem two_reruns_suffice fuel e pg σ :
  2 ≤ fuel →
  (interact fuel e pg σ).1 ≠ Rerun ∧
  interact fuel e pg σ = interact 2 e pg σ.
Proof.
  intros Hfuel.
  rewrite (interact_settled 2 e pg σ (interact_2_settles e pg σ) fuel Hfuel).
  split; [apply interact_2_settles | done].
Qed.

(** ** Every submission is counted *)

(** X18.  The radio widget always holds one of A, B, C, D, so the test of
    an empty choice and the missing-key branch of the quiz are never taken:
    in a quiz in progress whose current record has four options, on a page
    whose chat model can be built, every press of 'Next Question' ends with
    a re-execution, never with an exception, and is counted with the value
    the widget holds. *)
Theorem next_question_always_counts e σ qs q :
  has_key e (current σ) = true →
  in_progress (current σ) qs q → four_options q →
  pressed e = Some "Next Question" →
  (execute e QuizPage σ).1 = Rerun ∧
  ∃ c, radio e = Some c ∧ c ∈ choices ∧
       progress (current (execute e QuizPage σ).2) =
         (score (current σ) + gain q c,
          attempted_questions (current σ) ∪ {[current_question_idx (current σ)]},
          current_question_idx (current σ) + 1).
Proof.
  intros Hkey Hin Hfour Hpress.
  destruct (radio_choice e) as (c & Hradio & Hc).
  destruct (execute_advances e σ qs q c) as (σ' & -> & Hp); try done.
  split; [done|]. exists c. split; [done|]. split; [done|].
  apply quiz_part_is in Hp as (_ & Hi & Hsc & Ha & _).
  unfold progress. cbn [snd]. by rewrite Hi, Hsc, Ha.
Qed.

(** ** The summary *)

Lemma reachable_completed_at_end σ : reachable σ → completed_at_end (current σ).
Proof.
  induction 1 as [|e pg σ _ IH]; [done|].
  intros Hdone.
  destruct (execute_evolves e pg σ) as [Hsame | (_ & qs & Hwas & Hqs' & _ & Hcase)].
  - apply quiz_part_eq in Hsame as (Hq & Hi & _ & _ & Hc & _).
    rewrite Hq, Hi. apply IH. congruence.
  - exists qs. split; [done|].
    destruct Hcase as [[Hp Hc] | (? & ? & ? & _ & _ & _ & _ & _ & Hc)];
      [|congruence].
    destruct Hc as [Hc | (_ & qs1 & Hqs1 & Hlen)]; [|congruence].
    apply progress_is in Hp as (_ & _ & ->).
    destruct IH as (qs0 & Hqs0 & Hlen); [congruence|].
    destruct Hwas; congruence.
Qed.

Lemma quiz_summary_world e w qs :
  quiz_questions (ss w) = Some qs → qs ≠ [] → quiz_completed (ss w) = true →
  Quiz.quiz e w =
    (Ret (),
     {| ss := set_total_questions (length qs) (ss w);
        out := out w ++
               [ Progress (size (attempted_questions (ss w))) (length qs);
                 WriteAttempted (size (attempted_questions (ss w))) (length qs);
                 Header "Quiz Complete! 🎉";
                 PieChart (Z.of_nat (score (ss w)))
                   (Z.of_nat (length qs) - Z.of_nat (score (ss w))) ];
        cache := cache w |}).
Proof.
  intros Hqs Hne Hdone. destruct w as [s o ca]. simpl in *.
  unfold Quiz.quiz. unmonad. simpl. rewrite Hqs. simpl.
  rewrite bool_decide_eq_false_2 by (by destruct qs). simpl.
  rewrite Hdone. simpl. rewrite Hdone. simpl. rewrite <-!app_assoc. reflexivity.
Qed.

(** X19.  In a reachable session with the quiz completed and a key for the
    chat model, the quiz page
    finishes after drawing only the progress line and the summary; every
    question counts as attempted, and the chart shows the score and the
    number of questions minus the score, which is not negative. *)
Theorem completed_quiz_summary e σ qs :
  reachable σ → has_key e (current σ) = true →
  quiz_questions (current σ) = Some qs → qs ≠ [] →
  quiz_completed (current σ) = true →
  (0 ≤ Z.of_nat (length qs) - Z.of_nat (score (current σ)))%Z ∧
  ∃ o, Forall bootstrap_action o ∧
       (render e QuizPage σ).1 = Ret () ∧
       out (render e QuizPage σ).2 =
         o ++ [ Progress (length qs) (length qs);
                WriteAttempted (length qs) (length qs);
                Header "Quiz Complete! 🎉";
                PieChart (Z.of_nat (score (current σ)))
                  (Z.of_nat (length qs) - Z.of_nat (score (current σ))) ].
Proof.
  intros Hreach Hkey Hqs Hne Hdone.
  destruct (reachable_consistent σ Hreach) as (Hscore & Hatt & Hquiz).
  rewrite Hqs in Hquiz. destruct Hquiz as [_ Hle].
  destruct (reachable_completed_at_end σ Hreach Hdone) as (qs' & Hqs' & Hge).
  assert (qs' = qs) as -> by congruence.
  assert (current_question_idx (current σ) = length qs) as Hidx by lia.
  pose proof (reachable_attempted σ Hreach) as Hset.
  assert (size (attempted_questions (current σ)) = length qs) as Hsize
    by (by rewrite Hset, size_set_seq).
  split; [lia|].
  destruct (render_from e QuizPage σ) as (o & -> & Ho).
  exists o. split; [done|].
  destruct (booted_fields e (current σ)) as (_ & _ & _ & _ & _ & Hpart).
  apply quiz_part_eq in Hpart as (Hq & _ & Hsc & Ha & Hc & _).
  keyed Hkey.
  match goal with
  | |- context [Quiz.body e ?w] =>
      rewrite (quiz_body_stored e w qs) by (simpl; congruence);
      rewrite (quiz_summary_world e w qs) by (simpl; congruence)
  end.
  simpl. by rewrite Hsc, Ha, Hsize.
Qed.

(** ** Drawing the log again *)

Lemma replay_log (ms : list message) w :
  for_each ms (λ m,
    if bool_decide (role m = "user")
    then emit (ChatMessage "user" (content m))
    else emit (ChatMessage "assistant" (content m))) w =
  (Ret (), {| ss := ss w; out := out w ++ map replayed ms; cache := cache w |}).
Proof.
  revert w. induction ms as [|m ms IH]; intros w; simpl.
  - rewrite app_nil_r. by destruct w.
  - rewrite bind_apply.
    assert ((if bool_decide (role m = "user")
             then emit (ChatMessage "user" (content m))
             else emit (ChatMessage "assistant" (content m))) w =
            (Ret (), {| ss := ss w; out := out w ++ [replayed m];
                        cache := cache w |})) as ->.
    { unfold replayed. by case_bool_decide. }
    rewrite IH. simpl. by rewrite <-app_assoc.
Qed.

(** X20.  With a topic other than the empty string, a key for the chat
    model and the generate button
    not pressed, the Q&A page finishes after drawing the logged messages
    again, in order, and then the button; it invokes no chain and leaves
    the store as the bootstrap left it.  A question logged by generate_qna
    is drawn again as an assistant message and its answer as a user
    message. *)
Theorem qna_page_replays_log e σ :
  has_key e (current σ) = true →
  user_input (current σ) ≠ Some "" →
  pressed e ≠ Some "Generate Question Answers" →
  (∃ o, render e QnaPage σ =
          (Ret (), {| ss := booted e (current σ);
                      out := o ++ map replayed (messages (current σ)) ++
                             [Button "Generate Question Answers"];
                      cache := questions_cache σ |}) ∧
        Forall bootstrap_action o) ∧
  (∀ ques, map replayed (logged e ques) =
             [ChatMessage "assistant" ques;
              ChatMessage "user" (answer_text e ques)]).
Proof.
  intros Hkey Htopic Hpress. split; [|done].
  destruct (render_from e QnaPage σ) as (o & -> & Ho).
  exists o. split; [|done].
  destruct (booted_fields e (current σ)) as (Hu & _ & Hm & _).
  keyed Hkey.
  unfold QnA.body. rewrite bind_apply. unfold state at 1. cbn [ss].
  rewrite Hu, Hm. rewrite (bool_decide_eq_false_2 (user_input _ = _)) by done.
  cbn [negb]. rewrite bind_apply.
  destruct (messages (current σ)) as [|m ms] eqn:Hms.
  - rewrite bool_decide_eq_false_2 by (by intros []).
    unfold button. unmonad. simpl.
    by rewrite (bool_decide_eq_false_2 (pressed e = _)) by done.
  - rewrite bool_decide_eq_true_2 by done. rewrite replay_log.
    unfold button. unmonad. simpl.
    rewrite (bool_decide_eq_false_2 (pressed e = _)) by done.
    by rewrite <-app_assoc.
Qed.

(** ** The further statements at sample inputs *)

Lemma reachable_finished : reachable Visit.finished.
Proof. apply reachable_play, reachable_started. Qed.

Lemma stored_notes_kept_witness :
  notes (current Visit.with_notes) = Some "# Notes on the topic" ∧
  notes (current (execute (Sample.press "Generate Notes" None Sample.quiet)
                    NotesPage Visit.with_notes).2) =
    Some "# Notes on the topic".
Proof.
  assert (notes (current Visit.with_notes) = Some "# Notes on the topic") as H
    by (vm_compute; reflexivity).
  split; [exact H|]. apply stored_notes_kept. exact H.
Defined.

Lemma notes_redisplay_witness :
  ∃ o, render Sample.quiet NotesPage Visit.with_notes =
         (Ret (), {| ss := booted Sample.quiet (current Visit.with_notes);
                     out := o ++ [Markdown "# Notes on the topic"];
                     cache := questions_cache Visit.with_notes |}) ∧
       Forall bootstrap_action o.
Proof.
  apply notes_redisplay.
  - vm_compute; reflexivity.
  - vm_compute; reflexivity.
  - vm_compute. discriminate.
Defined.

Lemma notes_generation_witness :
  notes (current (execute (Sample.press "Generate Notes" None Sample.quiet)
                    NotesPage Sample.with_topic).2) =
    Some "# Notes on the topic".
Proof.
  rewrite (notes_generation (Sample.press "Generate Notes" None Sample.quiet)
             Sample.with_topic).
  - vm_compute; reflexivity.
  - vm_compute; reflexivity.
  - vm_compute; reflexivity.
  - vm_compute. discriminate.
  - reflexivity.
Defined.

Lemma introduction_streamed_once_witness :
  first_time (current Sample.with_topic) = false ∧
  WriteStream Main.subheader ∉ out (render Sample.quiet HomePage Sample.with_topic).2.
Proof.
  assert (first_time (current Sample.with_topic) = false) as H
    by (vm_compute; reflexivity).
  split; [exact H|].
  apply (introduction_streamed_once Sample.quiet Sample.with_topic H).
Defined.

Lemma questions_generated_once_witness :
  questions_cache Visit.with_answers = Some ["preamble"; "Q1"; "Q2"] ∧
  Forall (not_call QuestionsChain)
    (out (render (Sample.press "Generate Question Answers" None
                    (Sample.fill "gsk_key" "Another topic" Sample.quiet))
            QnaPage Visit.with_answers).2).
Proof.
  assert (questions_cache Visit.with_answers = Some ["preamble"; "Q1"; "Q2"])
    as H by (vm_compute; reflexivity).
  split; [exact H|].
  apply (questions_generated_once _ _ _ _ H).
Defined.

Lemma answer_failure_leaves_question_witness :
  messages (ss (QnA.generate_qna (Visit.failing_on "Q2" Sample.quiet)
                  (world_of Sample.with_topic)).2) =
    [ {| role := "assistant"; content := "Q1" |};
      {| role := "user"; content := "Answer to Q1" |};
      {| role := "assistant"; content := "Q2" |} ].
Proof.
  destruct (answer_failure_leaves_question (Visit.failing_on "Q2" Sample.quiet)
              (world_of Sample.with_topic) ["preamble"; "Q1"; "Q2"]
              ["Q1"] "Q2" [] (Py.RemoteError "rate limit reached"))
    as (_ & Hlog & _).
  - right. split; reflexivity.
  - reflexivity.
  - intros q Hq. apply list_elem_of_singleton in Hq as ->.
    exists ["Answer to "; "Q1"]. reflexivity.
  - reflexivity.
  - rewrite Hlog. reflexivity.
Defined.

Lemma qna_page_replays_log_witness :
  ∃ o, render Sample.quiet QnaPage Visit.with_answers =
         (Ret (), {| ss := booted Sample.quiet (current Visit.with_answers);
                     out := o ++ map replayed (messages (current Visit.with_answers)) ++
                            [Button "Generate Question Answers"];
                     cache := questions_cache Visit.with_answers |}) ∧
       Forall bootstrap_action o.
Proof.
  apply (qna_page_replays_log Sample.quiet Visit.with_answers).
  - vm_compute; reflexivity.
  - vm_compute. discriminate.
  - discriminate.
Defined.

Lemma quiz_generation_witness :
  quiz_part (current (execute (Sample.press "Generate Quiz" (Some OptionA) Sample.quiet)
                        QuizPage Sample.with_topic).2) =
    (Some Sample.quiz, 0, 0, ∅, false, 2).
Proof.
  destruct (quiz_generation (Sample.press "Generate Quiz" (Some OptionA) Sample.quiet)
              Sample.with_topic
              {| thinking_content := "thinking"; response_content := Sample.quiz |}
              Sample.train) as [_ H].
  - vm_compute; reflexivity.
  - vm_compute; reflexivity.
  - vm_compute; reflexivity.
  - vm_compute; reflexivity.
  - reflexivity.
  - reflexivity.
  - reflexivity.
  - unfold four_options. simpl. lia.
  - rewrite H. vm_compute. reflexivity.
Defined.

Lemma empty_generation_blocks_quiz_witness :
  let e := Sample.press "Generate Quiz" (Some OptionA) (Visit.no_records Sample.quiet) in
  (execute e QuizPage Sample.with_topic).1 = Raise Py.ZeroDivisionError ∧
  (execute Sample.quiet QuizPage (execute e QuizPage Sample.with_topic).2).1 =
    Raise Py.ZeroDivisionError.
Proof.
  cbv zeta.
  destruct (empty_generation_blocks_quiz
              (Sample.press "Generate Quiz" (Some OptionA) (Visit.no_records Sample.quiet))
              Sample.with_topic
              {| thinking_content := "thinking"; response_content := [] |})
    as (H1 & _ & H2 & _).
  - vm_compute; reflexivity.
  - vm_compute; reflexivity.
  - reflexivity.
  - reflexivity.
  - reflexivity.
  - split; [exact H1 | exact (H2 Sample.quiet)].
Defined.

Lemma short_record_blocks_quiz_witness :
  (execute Sample.quiet QuizPage Visit.blocked).1 = Raise Py.IndexError.
Proof.
  assert (in_progress (current Visit.blocked) [Sample.short; Sample.train]
            Sample.short) as Hin
    by (unfold in_progress; split_and?; reflexivity).
  assert (¬ four_options Sample.short) as Hfew
    by (unfold four_options; simpl; lia).
  exact (proj1 (short_record_blocks_quiz Sample.quiet Visit.blocked
                  [Sample.short; Sample.train] Sample.short Hin Hfew)).
Defined.

Lemma quiz_generated_once_witness :
  quiz_questions (current Sample.started) = Some Sample.quiz ∧
  Forall (not_call QuizChain)
    (out (render (Sample.press "Generate Quiz" (Some OptionA) Sample.quiet)
            QuizPage Sample.started).2).
Proof.
  assert (quiz_questions (current Sample.started) = Some Sample.quiz) as H
    by (vm_compute; reflexivity).
  split; [exact H|]. apply (quiz_generated_once _ _ _ _ H).
Defined.

Lemma attempted_are_the_indices_below_witness :
  size (attempted_questions (current Visit.finished)) =
  current_question_idx (current Visit.finished).
Proof.
  apply (attempted_are_the_indices_below Visit.finished reachable_finished).
Defined.

Lemma score_counts_correct_answers_witness :
  score (current (play 2 Visit.answers Sample.started)) =
  score (current Sample.started) + tally Sample.quiz Visit.answers.
Proof.
  apply (score_counts_correct_answers 2 Sample.quiz Sample.started Visit.answers).
  - lia.
  - repeat constructor; unfold four_options; simpl; lia.
  - repeat constructor.
    + exists "A". split; [split; vm_compute; reflexivity | apply choices_spec; auto].
    + exists "D". split; [split; vm_compute; reflexivity | apply choices_spec; auto].
  - repeat constructor; vm_compute; reflexivity.
  - vm_compute; reflexivity.
  - vm_compute; reflexivity.
  - vm_compute; reflexivity.
  - simpl. lia.
Defined.

Lemma completed_quiz_is_final_witness :
  quiz_completed (current Visit.finished) = true ∧
  progress (current (interact 2 (Sample.press "Next Question" (Some OptionA) Sample.quiet)
                       QuizPage Visit.finished).2) =
  progress (current Visit.finished).
Proof.
  assert (quiz_completed (current Visit.finished) = true) as H
    by (vm_compute; reflexivity).
  split; [exact H|]. apply (completed_quiz_is_final _ _ _ _ H).
Defined.

Lemma completed_quiz_summary_witness :
  (0 ≤ Z.of_nat (length Sample.quiz) -
       Z.of_nat (score (current Visit.finished)))%Z.
Proof.
  apply (completed_quiz_summary Sample.quiet Visit.finished Sample.quiz
           reachable_finished).
  - vm_compute; reflexivity.
  - vm_compute; reflexivity.
  - discriminate.
  - vm_compute; reflexivity.
Defined.

Lemma two_reruns_suffice_witness :
  interact 5 (Sample.press "Next Question" (Some OptionD) Sample.quiet) QuizPage
    Sample.started =
  interact 2 (Sample.press "Next Question" (Some OptionD) Sample.quiet) QuizPage
    Sample.started.
Proof. apply two_reruns_suffice. lia. Defined.

Lemma next_question_always_counts_witness :
  let e := Sample.press "Next Question" (Some OptionB) Sample.quiet in
  (execute e QuizPage Sample.started).1 = Rerun ∧
  radio e = Some "B" ∧
  progress (current (execute e QuizPage Sample.started).2) = (0, {[0]}, 1).
Proof.
  cbv zeta.
  destruct (next_question_always_counts
              (Sample.press "Next Question" (Some OptionB) Sample.quiet)
              Sample.started Sample.quiz Sample.train)
    as (Hrerun & c & Hradio & Hc & Hp).
  - vm_compute; reflexivity.
  - unfold in_progress. split_and?; vm_compute; reflexivity.
  - unfold four_options. simpl. lia.
  - reflexivity.
  - assert (c = "B") as ->.
    { rewrite radio_value in Hradio. simpl in Hradio. congruence. }
    split_and?; [exact Hrerun | exact Hradio |].
    rewrite Hp.
    assert (score (current Sample.started) = 0) as -> by (vm_compute; reflexivity).
    assert (gain Sample.train "B" = 0) as -> by (vm_compute; reflexivity).
    assert (attempted_questions (current Sample.started) = ∅) as ->
      by (vm_compute; reflexivity).
    assert (current_question_idx (current Sample.started) = 0) as ->
      by (vm_compute; reflexivity).
    by rewrite union_empty_l_L.
Defined.

(** ** Each page writes its own keys *)

(** X21.  Each page writes only its own keys of the store: the topic, the
    API key and the first-visit flag are written by the home page only, the
    notes by the notes page only, the message log by the Q&A page only, and
    the quiz questions and progress by the quiz page only; so the quiz
    progress survives a visit to another page. *)
Theorem pages_write_their_own_keys e pg σ :
  (pg ≠ HomePage →
   user_input (current (execute e pg σ).2) = user_input (current σ) ∧
   groq_api_key (current (execute e pg σ).2) = groq_api_key (current σ) ∧
   first_time (current (execute e pg σ).2) = first_time (current σ)) ∧
  (pg ≠ NotesPage →
   notes (current (execute e pg σ).2) = notes (current σ)) ∧
  (pg ≠ QnaPage →
   messages (current (execute e pg σ).2) = messages (current σ)) ∧
  (pg ≠ QuizPage →
   quiz_part (current (execute e pg σ).2) = quiz_part (current σ)).
Proof.
  pose proof (execute_foreign e pg σ) as H.
  set (s' := current (execute e pg σ).2) in *. clearbody s'.
  destruct pg; cbn [foreign] in H; unfold quiz_part in *; injection H as ?;
    split_and?; intros ?; try done; split_and?; congruence.
Qed.

(** ** Nothing is generated without a press *)

Lemma emits_button_bind {A} P e label (k : bool → script A) :
  P (Button label) →
  emits P (k (bool_decide (pressed e = Some label))) →
  emits P (button e label ≫= k).
Proof.
  intros HP Hk. unfold button.
  intros w. unfold mbind, script_bind, bind, emit, ret. simpl.
  destruct (Hk {| ss := ss w; out := out w ++ [Button label]; cache := cache w |})
    as (o & Ho & HPo).
  exists (Button label :: o). simpl in *. rewrite Ho, <-app_assoc.
  split; [done | by constructor].
Qed.

Ltac emitting_unpressed H :=
  repeat first
    [ progress intros
    | apply emits_button_bind;
      [ intros ? ?; discriminate | rewrite H; simpl ]
    | apply emits_bind
    | apply emits_for_each
    | apply emits_emit; intros ? ?; discriminate
    | apply emits_ret | apply emits_raise | apply emits_rerun
    | apply emits_state | apply emits_modify | apply emits_cached
    | apply emits_memoize | apply emits_index | apply emits_ChatGroq
    | match goal with
      | |- emits _ (if ?b then _ else _) => destruct b
      | |- emits _ (match ?x with _ => _ end) => destruct x
      end ].

Lemma emits_unpressed e pg : pressed e = None → emits no_call (run e pg).
Proof.
  intros Hnone. destruct pg; simpl.
  - unfold Main.page, write_stream. emitting_unpressed Hnone.
  - unfold Notes.page, Notes.body. emitting_unpressed Hnone.
  - unfold QnA.page, QnA.body. emitting_unpressed Hnone.
  - unfold Quiz.page, Quiz.body, Quiz.quiz. emitting_unpressed Hnone.
Qed.

(** X22.  The chains are invoked on a press only: an execution with no
    button pressed, such as every re-execution after [st.rerun()], invokes
    no chain on any page. *)
Theorem no_generation_without_press e pg σ :
  pressed e = None → Forall no_call (out (render e pg σ).2).
Proof.
  intros Hnone. destruct (render_from e pg σ) as (o & -> & Ho).
  match goal with
  | |- context [run e pg ?w] =>
      destruct (emits_unpressed e pg Hnone w) as (o' & -> & Ho')
  end.
  simpl. apply Forall_app. split; [|done].
  eapply Forall_impl; [exact Ho|]. intros x Hx c arg ->. exact Hx.
Qed.

(** ** The greeting of the home page *)

(** X23.  The home page streams its closing greeting exactly when both the
    topic and the API key of the form are non-empty. *)
Theorem greeting_needs_topic_and_key e σ :
  WriteStream greeting ∈ out (render e HomePage σ).2 ↔
  text_area e ≠ "" ∧ text_input e ≠ "".
Proof.
  destruct (render_from e HomePage σ) as (o & -> & Ho).
  assert (WriteStream greeting ∉ o)
    by (apply not_bootstrap_action; [done | by intros []]).
  generalize (booted e (current σ)). intros s.
  unfold run, Main.page. unmonad. simpl.
  destruct (first_time s); simpl;
    repeat case_bool_decide; simpl;
    rewrite ?elem_of_app, ?elem_of_cons, ?elem_of_nil;
    (split; [intros Hin; decompose [or] Hin; try done; try discriminate
            | intros [? ?]; try done; auto 10]).
Qed.

(** ** The key of the chat model *)

(** X24.  The pages that generate text need a key.  Without one, in the
    store or in the variable GROQ_API_KEY of the process, every execution
    of the Notes, Q&A or Quiz page stops at the construction of the chat
    model: it draws nothing of the page, invokes no chain and leaves the
    store as the bootstrap left it.  A non-empty key submitted on the home
    page is kept by the other pages, so that their chat models can be
    built from then on until the form is submitted again. *)
Theorem missing_key_stops_page e pg σ :
  (has_key e (current σ) = false → pg ≠ HomePage →
   ∃ o, render e pg σ =
          (Raise Py.GroqError,
           {| ss := booted e (current σ); out := o;
              cache := questions_cache σ |}) ∧
        Forall bootstrap_action o) ∧
  (text_input e ≠ "" →
   ∀ e' pg' e'', pg' ≠ HomePage →
     has_key e' (current (execute e HomePage σ).2) = true ∧
     has_key e'' (current (execute e' pg' (execute e HomePage σ).2).2) = true).
Proof.
  split.
  - intros Hkey Hpg. destruct (render_from e pg σ) as (o & -> & Ho).
    exists o. split; [|done].
    destruct pg; [done|..]; keyed Hkey; reflexivity.
  - intros Hinput e' pg' e'' Hpg'.
    assert (∀ e0, has_key e0 (current (execute e HomePage σ).2) = true) as Hhome.
    { intros e0. unfold execute. destruct (render_from e HomePage σ) as (o & -> & _).
      generalize (booted e (current σ)). intros s.
      unfold has_key, run, Main.page. unmonad. simpl.
      destruct (first_time s); simpl;
        destruct (negb _ && negb _); simpl;
        by rewrite (bool_decide_eq_false_2 (text_input e = "")) by done. }
    split; [apply Hhome|].
    rewrite <-(Hhome e''). apply has_key_ext; [done|].
    apply (foreign_key pg'); [done|]. apply execute_foreign.
Qed.

(** ** The statements on pages and presses at sample inputs *)

Lemma pages_write_their_own_keys_witness :
  quiz_part (current (execute (Sample.press "Generate Notes" None Sample.quiet)
                        NotesPage Sample.started).2) =
  quiz_part (current Sample.started).
Proof.
  apply (pages_write_their_own_keys
           (Sample.press "Generate Notes" None Sample.quiet) NotesPage
           Sample.started).
  discriminate.
Defined.

Lemma no_generation_without_press_witness :
  Forall no_call (out (render Sample.quiet QnaPage Sample.with_topic).2).
Proof. apply no_generation_without_press. reflexivity. Defined.

Lemma greeting_needs_topic_and_key_witness :
  WriteStream greeting ∈
    out (render (Sample.fill "gsk_key" "Newton's Laws" Sample.quiet) HomePage
           new_session).2.
Proof.
  apply greeting_needs_topic_and_key. split; discriminate.
Defined.

Lemma missing_key_stops_page_witness :
  (render (Sample.press "Generate Quiz" None Sample.quiet) QuizPage new_session).1 =
    Raise Py.GroqError ∧
  has_key Sample.quiet (current Sample.with_topic) = true.
Proof.
  destruct (missing_key_stops_page
              (Sample.press "Generate Quiz" None Sample.quiet) QuizPage new_session)
    as (Hstop & _).
  destruct (missing_key_stops_page
              (Sample.fill "gsk_key" "Newton's Laws" Sample.quiet) HomePage
              new_session) as (_ & Hkept).
  destruct Hstop as (o & Hrender & _); [reflexivity | discriminate |].
  destruct (Hkept ltac:(discriminate) Sample.quiet QuizPage Sample.quiet
              ltac:(discriminate)) as (Hkey & _).
  split; [by rewrite Hrender | exact Hkey].
Defined.
